(** * KumaFront: the listing view (HomePage.tsx) and the term form (TermForm.tsx)

    A shallow embedding of the two React components and the properties of
    their filtering, pagination and form handling.

    - JavaScript strings are sequences of UTF-16 code units ([list N]).
    - Component state is a record; every [setX] of the source is a record
      update, every event handler a function on the state.
    - [useEffect] bodies are functions on the state, run when one of their
      dependencies changes.
    - The body of an [async] function that sits in a [try]/[catch] is written
      in a small state-and-exception monad. *)

From Stdlib Require Import ZArith NArith Lia.
From stdpp Require Import base numbers option list strings gmap.

Local Open Scope N_scope.

(** ** JavaScript strings, arrays and values *)

Module JS.

(** A string is the list of its UTF-16 code units. *)
Definition JsString : Type := list N.

(** The string written as a literal in the source. *)
Definition js (s : string) : JsString :=
  (λ a, N.of_nat (Ascii.nat_of_ascii a)) <$> String.list_ascii_of_string s.

(** [ToBoolean] on a string: every string but the empty one is truthy. *)
Definition truthy (s : JsString) : bool :=
  match s with
  | [] => false
  | _ :: _ => true
  end.

(** [===] on two strings. *)
Definition str_eq (a b : JsString) : bool := bool_decide (a = b).

(** Case mapping. The tables cover Basic Latin and the Latin-1 Supplement
    (U+0000 to U+00FF); a code unit above U+00FF is left as it is, which
    is what JavaScript does for some of them only. What is proved from
    the values of the tables is therefore stated for Latin-1 text. Inside
    that range the mapping works one code unit at a time. Upper-casing is
    not length preserving: U+00DF (sharp s) becomes the two letters "SS",
    and U+00B5, U+00FF leave the range (U+039C, U+0178). *)
Definition upper_unit (c : N) : list N :=
  if (0x61 <=? c) && (c <=? 0x7A) then [c - 0x20]
  else if c =? 0xB5 then [0x39C]
  else if c =? 0xDF then [0x53; 0x53]
  else if (0xE0 <=? c) && (c <=? 0xFE) && negb (c =? 0xF7) then [c - 0x20]
  else if c =? 0xFF then [0x178]
  else [c].

Definition lower_unit (c : N) : N :=
  if (0x41 <=? c) && (c <=? 0x5A) then c + 0x20
  else if (0xC0 <=? c) && (c <=? 0xDE) && negb (c =? 0xD7) then c + 0x20
  else c.

(** [String.prototype.toUpperCase] and [String.prototype.toLowerCase]. *)
Definition toUpperCase (s : JsString) : JsString := s ≫= upper_unit.
Definition toLowerCase (s : JsString) : JsString := lower_unit <$> s.

(** The index arithmetic shared by [Array.prototype.slice] and
    [String.prototype.slice]: a negative index counts from the end, and
    every index is clamped to [0, len]. *)
Definition clamp_index (len : nat) (i : Z) : nat :=
  if (i <? 0)%Z then Z.to_nat (Z.max (Z.of_nat len + i) 0)
  else Z.to_nat (Z.min i (Z.of_nat len)).

(** [xs.slice(start, end)]; [None] stands for an omitted [end]. *)
Definition slice {A} (xs : list A) (start : Z) (end_ : option Z) : list A :=
  let len := length xs in
  let k := clamp_index len start in
  let final := match end_ with
               | None => len
               | Some e => clamp_index len e
               end in
  take (final - k)%nat (drop k xs).

(** [s.charAt(pos)]: the one-unit string at [pos], or the empty string when
    [pos] is out of range. *)
Definition charAt (s : JsString) (pos : Z) : JsString :=
  if (pos <? 0)%Z then []
  else match s !! Z.to_nat pos with
       | Some c => [c]
       | None => []
       end.

(** [s] starts with [p]. *)
Fixpoint starts_with (p s : JsString) : bool :=
  match p, s with
  | [], _ => true
  | _ :: _, [] => false
  | a :: p', b :: s' => (a =? b) && starts_with p' s'
  end.

(** [s.includes(sub)]: [sub] occurs in [s] at some position. *)
Fixpoint includes (s sub : JsString) : bool :=
  starts_with sub s ||
  match s with
  | [] => false
  | _ :: s' => includes s' sub
  end.

(** A JavaScript value that is not an array: a primitive or a plain
    object. Numbers are carried as integers; the model never inspects
    them. *)
#[warnings="-register-all"]
Inductive JsValue : Type :=
  | JUndefined
  | JNull
  | JBool (b : bool)
  | JNum (n : Z)
  | JStr (s : JsString)
  | JObj (props : gmap string JsValue).

(** [v === s] for a string [s]. *)
Definition strict_eq_str (v : JsValue) (s : JsString) : bool :=
  match v with
  | JStr s' => str_eq s' s
  | _ => false
  end.

(** [!v] where [v] is a string or [undefined]. *)
Definition falsy (v : option JsString) : bool :=
  match v with
  | Some s => negb (truthy s)
  | None => true
  end.

End JS.

(** ** HomePage.tsx: the listing and filter view *)

Module HomePage.
Import JS.

Record Category : Type := {
  category_id : JsString;
  category_name : JsString;
  category_isApproved : bool;
}.

Record Theme : Type := {
  theme_id : JsString;
  theme_name : JsString;
  theme_isApproved : bool;
}.

Record Language : Type := {
  language_id : JsString;
  language_name : JsString;
  language_code : JsString;
  language_isApproved : bool;
}.

Record Term : Type := {
  _id : JsString;
  term : JsString;
  definition : JsString;
  grammaticalCategory : Category;
  theme : Theme;
  language : Language;
  status : JsString;
}.

(** The component state, one field per [useState]. The page number is a
    JavaScript number that only ever holds an integer. *)
Record State : Type := {
  terms : list Term;
  filteredTerms : list Term;
  categories : list Category;
  selectedCategory : JsString;
  themes : list Theme;
  selectedTheme : JsString;
  languages : list Language;
  selectedLanguage : JsString;
  searchTerm : JsString;
  currentPage : Z;
}.

Definition termsPerPage : Z := 10.

Definition initialState : State := {|
  terms := []; filteredTerms := [];
  categories := []; selectedCategory := [];
  themes := []; selectedTheme := [];
  languages := []; selectedLanguage := [];
  searchTerm := [];
  currentPage := 1;
|}.

Definition setTerms (v : list Term) (s : State) : State :=
  {| terms := v; filteredTerms := filteredTerms s;
     categories := categories s; selectedCategory := selectedCategory s;
     themes := themes s; selectedTheme := selectedTheme s;
     languages := languages s; selectedLanguage := selectedLanguage s;
     searchTerm := searchTerm s; currentPage := currentPage s |}.

Definition setFilteredTerms (v : list Term) (s : State) : State :=
  {| terms := terms s; filteredTerms := v;
     categories := categories s; selectedCategory := selectedCategory s;
     themes := themes s; selectedTheme := selectedTheme s;
     languages := languages s; selectedLanguage := selectedLanguage s;
     searchTerm := searchTerm s; currentPage := currentPage s |}.

Definition setCategories (v : list Category) (s : State) : State :=
  {| terms := terms s; filteredTerms := filteredTerms s;
     categories := v; selectedCategory := selectedCategory s;
     themes := themes s; selectedTheme := selectedTheme s;
     languages := languages s; selectedLanguage := selectedLanguage s;
     searchTerm := searchTerm s; currentPage := currentPage s |}.

Definition setSelectedCategory (v : JsString) (s : State) : State :=
  {| terms := terms s; filteredTerms := filteredTerms s;
     categories := categories s; selectedCategory := v;
     themes := themes s; selectedTheme := selectedTheme s;
     languages := languages s; selectedLanguage := selectedLanguage s;
     searchTerm := searchTerm s; currentPage := currentPage s |}.

Definition setThemes (v : list Theme) (s : State) : State :=
  {| terms := terms s; filteredTerms := filteredTerms s;
     categories := categories s; selectedCategory := selectedCategory s;
     themes := v; selectedTheme := selectedTheme s;
     languages := languages s; selectedLanguage := selectedLanguage s;
     searchTerm := searchTerm s; currentPage := currentPage s |}.

Definition setSelectedTheme (v : JsString) (s : State) : State :=
  {| terms := terms s; filteredTerms := filteredTerms s;
     categories := categories s; selectedCategory := selectedCategory s;
     themes := themes s; selectedTheme := v;
     languages := languages s; selectedLanguage := selectedLanguage s;
     searchTerm := searchTerm s; currentPage := currentPage s |}.

Definition setLanguages (v : list Language) (s : State) : State :=
  {| terms := terms s; filteredTerms := filteredTerms s;
     categories := categories s; selectedCategory := selectedCategory s;
     themes := themes s; selectedTheme := selectedTheme s;
     languages := v; selectedLanguage := selectedLanguage s;
     searchTerm := searchTerm s; currentPage := currentPage s |}.

Definition setSelectedLanguage (v : JsString) (s : State) : State :=
  {| terms := terms s; filteredTerms := filteredTerms s;
     categories := categories s; selectedCategory := selectedCategory s;
     themes := themes s; selectedTheme := selectedTheme s;
     languages := languages s; selectedLanguage := v;
     searchTerm := searchTerm s; currentPage := currentPage s |}.

Definition setSearchTerm (v : JsString) (s : State) : State :=
  {| terms := terms s; filteredTerms := filteredTerms s;
     categories := categories s; selectedCategory := selectedCategory s;
     themes := themes s; selectedTheme := selectedTheme s;
     languages := languages s; selectedLanguage := selectedLanguage s;
     searchTerm := v; currentPage := currentPage s |}.

Definition setCurrentPage (v : Z) (s : State) : State :=
  {| terms := terms s; filteredTerms := filteredTerms s;
     categories := categories s; selectedCategory := selectedCategory s;
     themes := themes s; selectedTheme := selectedTheme s;
     languages := languages s; selectedLanguage := selectedLanguage s;
     searchTerm := searchTerm s; currentPage := v |}.

(** The callback of [terms.filter] in the filtering effect (lines 102-107). *)
Definition matches (selCategory selTheme selLanguage search : JsString)
    (t : Term) : bool :=
  (if truthy selCategory
   then str_eq (category_name (grammaticalCategory t)) selCategory else true) &&
  (if truthy selTheme
   then str_eq (theme_name (theme t)) selTheme else true) &&
  (if truthy selLanguage
   then str_eq (language_name (language t)) selLanguage else true) &&
  (includes (toLowerCase (term t)) (toLowerCase search) ||
   includes (toLowerCase (definition t)) (toLowerCase search)).

Definition filterTerms (selCategory selTheme selLanguage search : JsString)
    (ts : list Term) : list Term :=
  List.filter (matches selCategory selTheme selLanguage search) ts.

(** The filtering effect: recompute [filteredTerms] from the five
    dependencies. *)
Definition filterEffect (s : State) : State :=
  setFilteredTerms
    (filterTerms (selectedCategory s) (selectedTheme s) (selectedLanguage s)
       (searchTerm s) (terms s)) s.

(** The three [onSelectOption] callbacks (lines 135, 141, 147). *)
Definition onSelectCategory (option : JsString) (s : State) : State :=
  setSelectedCategory
    (if str_eq option (selectedCategory s) then [] else option) s.

Definition onSelectTheme (option : JsString) (s : State) : State :=
  setSelectedTheme
    (if str_eq option (selectedTheme s) then [] else option) s.

Definition onSelectLanguage (option : JsString) (s : State) : State :=
  setSelectedLanguage
    (if str_eq option (selectedLanguage s) then [] else option) s.

Definition handleSearchChange (value : JsString) (s : State) : State :=
  setSearchTerm value s.

Definition paginate (pageNumber : Z) (s : State) : State :=
  setCurrentPage pageNumber s.

(** The page on display (lines 115-117). *)
Definition indexOfLastTerm (s : State) : Z := (currentPage s * termsPerPage)%Z.
Definition indexOfFirstTerm (s : State) : Z := (indexOfLastTerm s - termsPerPage)%Z.
Definition currentTerms (s : State) : list Term :=
  slice (filteredTerms s) (indexOfFirstTerm s) (Some (indexOfLastTerm s)).

(** The buttons of the [Pagination] component: 1 to
    ceil(totalTerms / termsPerPage). *)
Definition pageNumbers (totalTerms : nat) : list Z :=
  seqZ 1 ((Z.of_nat totalTerms + termsPerPage - 1) / termsPerPage)%Z.

(** What can happen to the component: a fetch settles, or the user acts.
    [TermsLoaded None] is a fetch that resolves to a falsy value;
    [FetchFailed] is any of the four fetches ending in its [catch], which
    touches no state of this component. *)
Inductive Event : Type :=
  | TermsLoaded (data : option (list Term))
  | CategoriesLoaded (categoriesData : list Category)
  | ThemesLoaded (themesData : list Theme)
  | LanguagesLoaded (languagesData : list Language)
  | FetchFailed
  | SearchChange (value : JsString)
  | SelectCategory (option : JsString)
  | SelectTheme (option : JsString)
  | SelectLanguage (option : JsString)
  | Paginate (pageNumber : Z).

(** The state writes of the handler or fetch continuation of an event. *)
Definition handle (e : Event) (s : State) : State :=
  match e with
  | TermsLoaded (Some data) => setFilteredTerms data (setTerms data s)
  | TermsLoaded None => s
  | CategoriesLoaded d => setCategories (List.filter category_isApproved d) s
  | ThemesLoaded d => setThemes (List.filter theme_isApproved d) s
  | LanguagesLoaded d => setLanguages (List.filter language_isApproved d) s
  | FetchFailed => s
  | SearchChange v => handleSearchChange v s
  | SelectCategory o => onSelectCategory o s
  | SelectTheme o => onSelectTheme o s
  | SelectLanguage o => onSelectLanguage o s
  | Paginate n => paginate n s
  end.

(** Whether a dependency of the filtering effect changed between two
    renders. A fetched array is a new object, so storing it always counts
    as a change; strings are compared by value. *)
Definition depsChanged (e : Event) (old new : State) : bool :=
  match e with
  | TermsLoaded (Some _) => true
  | _ =>
      negb (str_eq (selectedCategory old) (selectedCategory new)) ||
      negb (str_eq (selectedTheme old) (selectedTheme new)) ||
      negb (str_eq (selectedLanguage old) (selectedLanguage new)) ||
      negb (str_eq (searchTerm old) (searchTerm new))
  end.

(** One event, followed by the effects of the render it causes. *)
Definition step (s : State) (e : Event) : State :=
  let s' := handle e s in
  if depsChanged e s s' then filterEffect s' else s'.

(** The state after mounting: the filtering effect runs once. *)
Definition mount : State := filterEffect initialState.

Definition run (s : State) (es : list Event) : State := foldl step s es.

(** *** The filter as the specification words it *)

(** [s] is a case-insensitive substring of [t]. *)
Definition ci_substring (s t : JsString) : Prop :=
  ∃ pre post, toLowerCase t = pre ++ toLowerCase s ++ post.

(** The four conditions of the filter on a term. *)
Definition Passes (selCategory selTheme selLanguage search : JsString)
    (t : Term) : Prop :=
  (selCategory = [] ∨ category_name (grammaticalCategory t) = selCategory) ∧
  (selTheme = [] ∨ theme_name (theme t) = selTheme) ∧
  (selLanguage = [] ∨ language_name (language t) = selLanguage) ∧
  (search = [] ∨ ci_substring search (term t)
               ∨ ci_substring search (definition t)).

(** [Selects P xs ys]: [ys] is [xs] with exactly the elements satisfying
    [P] kept, in their order and with their repetitions. *)
Inductive Selects {A} (P : A → Prop) : list A → list A → Prop :=
  | Selects_nil : Selects P [] []
  | Selects_keep x xs ys : P x → Selects P xs ys → Selects P (x :: xs) (x :: ys)
  | Selects_drop x xs ys : ¬ P x → Selects P xs ys → Selects P (x :: xs) ys.

(** The stored filtered list agrees with the stored terms and filter
    inputs. *)
Definition in_sync (s : State) : Prop :=
  filteredTerms s =
  filterTerms (selectedCategory s) (selectedTheme s) (selectedLanguage s)
    (searchTerm s) (terms s).

(** The paginate action among the events. *)
Definition is_paginate (e : Event) : bool :=
  match e with
  | Paginate _ => true
  | _ => false
  end.

End HomePage.

(** ** TermForm.tsx: the term submission form *)

Module TermForm.
Import JS.

(** The [initialData] prop. *)
Record InitialData : Type := {
  init_term : JsString;
  init_translation : JsString;
  init_definition : JsString;
  init_grammaticalCategory : JsString;
  init_theme : JsString;
  init_language : JsString;
}.

Record Props : Type := {
  termId : option JsString;
  initialData : option InitialData;
}.

(** [initialData?.f]: [None] is [undefined]. *)
Definition initial (f : InitialData → JsString) (p : Props) : option JsString :=
  f <$> initialData p.

(** [v || ''] for a string or [undefined]. *)
Definition or_empty (v : option JsString) : JsString :=
  match v with
  | Some s => if truthy s then s else []
  | None => []
  end.

(** An entry of the category and theme dropdowns, and one of the language
    dropdown. *)
Record NamedOption : Type := {
  opt_id : JsString;
  opt_name : JsString;
}.

Record LanguageOption : Type := {
  lang_id : JsString;
  lang_name : JsString;
  lang_code : JsString;
}.

(** The component state, one field per [useState]. [language] is typed as
    a string in the source but line 64 can store whatever a defective
    languages response carries, so it holds a JavaScript value. [console]
    is not React state: it is the diagnostic channel, the messages given
    to [console.error] so far. *)
Record Form : Type := {
  term : JsString;
  definition : JsString;
  translation : JsString;
  grammaticalCategory : JsString;
  theme : JsString;
  language : JsValue;
  newCategory : JsString;
  newTheme : JsString;
  newLanguage : JsString;
  categories : list NamedOption;
  themeOptions : list NamedOption;
  languageOptions : list LanguageOption;
  loading : bool;
  error : option JsString;
  rawValues : gmap string JsValue;
  showModal : bool;
  modalMessage : JsString;
  console : list JsString;
}.

Definition setTerm (v : JsString) (s : Form) : Form :=
  {| term := v; definition := definition s; translation := translation s;
     grammaticalCategory := grammaticalCategory s; theme := theme s;
     language := language s; newCategory := newCategory s;
     newTheme := newTheme s; newLanguage := newLanguage s;
     categories := categories s; themeOptions := themeOptions s;
     languageOptions := languageOptions s; loading := loading s;
     error := error s; rawValues := rawValues s; showModal := showModal s;
     modalMessage := modalMessage s; console := console s |}.

Definition setDefinition (v : JsString) (s : Form) : Form :=
  {| term := term s; definition := v; translation := translation s;
     grammaticalCategory := grammaticalCategory s; theme := theme s;
     language := language s; newCategory := newCategory s;
     newTheme := newTheme s; newLanguage := newLanguage s;
     categories := categories s; themeOptions := themeOptions s;
     languageOptions := languageOptions s; loading := loading s;
     error := error s; rawValues := rawValues s; showModal := showModal s;
     modalMessage := modalMessage s; console := console s |}.

Definition setTranslation (v : JsString) (s : Form) : Form :=
  {| term := term s; definition := definition s; translation := v;
     grammaticalCategory := grammaticalCategory s; theme := theme s;
     language := language s; newCategory := newCategory s;
     newTheme := newTheme s; newLanguage := newLanguage s;
     categories := categories s; themeOptions := themeOptions s;
     languageOptions := languageOptions s; loading := loading s;
     error := error s; rawValues := rawValues s; showModal := showModal s;
     modalMessage := modalMessage s; console := console s |}.

Definition setGrammaticalCategory (v : JsString) (s : Form) : Form :=
  {| term := term s; definition := definition s;
     translation := translation s; grammaticalCategory := v;
     theme := theme s; language := language s; newCategory := newCategory s;
     newTheme := newTheme s; newLanguage := newLanguage s;
     categories := categories s; themeOptions := themeOptions s;
     languageOptions := languageOptions s; loading := loading s;
     error := error s; rawValues := rawValues s; showModal := showModal s;
     modalMessage := modalMessage s; console := console s |}.

Definition setTheme (v : JsString) (s : Form) : Form :=
  {| term := term s; definition := definition s;
     translation := translation s;
     grammaticalCategory := grammaticalCategory s; theme := v;
     language := language s; newCategory := newCategory s;
     newTheme := newTheme s; newLanguage := newLanguage s;
     categories := categories s; themeOptions := themeOptions s;
     languageOptions := languageOptions s; loading := loading s;
     error := error s; rawValues := rawValues s; showModal := showModal s;
     modalMessage := modalMessage s; console := console s |}.

Definition setLanguage (v : JsValue) (s : Form) : Form :=
  {| term := term s; definition := definition s;
     translation := translation s;
     grammaticalCategory := grammaticalCategory s; theme := theme s;
     language := v; newCategory := newCategory s; newTheme := newTheme s;
     newLanguage := newLanguage s; categories := categories s;
     themeOptions := themeOptions s; languageOptions := languageOptions s;
     loading := loading s; error := error s; rawValues := rawValues s;
     showModal := showModal s; modalMessage := modalMessage s;
     console := console s |}.

Definition setNewCategory (v : JsString) (s : Form) : Form :=
  {| term := term s; definition := definition s;
     translation := translation s;
     grammaticalCategory := grammaticalCategory s; theme := theme s;
     language := language s; newCategory := v; newTheme := newTheme s;
     newLanguage := newLanguage s; categories := categories s;
     themeOptions := themeOptions s; languageOptions := languageOptions s;
     loading := loading s; error := error s; rawValues := rawValues s;
     showModal := showModal s; modalMessage := modalMessage s;
     console := console s |}.

Definition setNewTheme (v : JsString) (s : Form) : Form :=
  {| term := term s; definition := definition s;
     translation := translation s;
     grammaticalCategory := grammaticalCategory s; theme := theme s;
     language := language s; newCategory := newCategory s; newTheme := v;
     newLanguage := newLanguage s; categories := categories s;
     themeOptions := themeOptions s; languageOptions := languageOptions s;
     loading := loading s; error := error s; rawValues := rawValues s;
     showModal := showModal s; modalMessage := modalMessage s;
     console := console s |}.

Definition setNewLanguage (v : JsString) (s : Form) : Form :=
  {| term := term s; definition := definition s;
     translation := translation s;
     grammaticalCategory := grammaticalCategory s; theme := theme s;
     language := language s; newCategory := newCategory s;
     newTheme := newTheme s; newLanguage := v; categories := categories s;
     themeOptions := themeOptions s; languageOptions := languageOptions s;
     loading := loading s; error := error s; rawValues := rawValues s;
     showModal := showModal s; modalMessage := modalMessage s;
     console := console s |}.

Definition setCategories (v : list NamedOption) (s : Form) : Form :=
  {| term := term s; definition := definition s;
     translation := translation s;
     grammaticalCategory := grammaticalCategory s; theme := theme s;
     language := language s; newCategory := newCategory s;
     newTheme := newTheme s; newLanguage := newLanguage s; categories := v;
     themeOptions := themeOptions s; languageOptions := languageOptions s;
     loading := loading s; error := error s; rawValues := rawValues s;
     showModal := showModal s; modalMessage := modalMessage s;
     console := console s |}.

Definition setThemeOptions (v : list NamedOption) (s : Form) : Form :=
  {| term := term s; definition := definition s;
     translation := translation s;
     grammaticalCategory := grammaticalCategory s; theme := theme s;
     language := language s; newCategory := newCategory s;
     newTheme := newTheme s; newLanguage := newLanguage s;
     categories := categories s; themeOptions := v;
     languageOptions := languageOptions s; loading := loading s;
     error := error s; rawValues := rawValues s; showModal := showModal s;
     modalMessage := modalMessage s; console := console s |}.

Definition setLanguageOptions (v : list LanguageOption) (s : Form) : Form :=
  {| term := term s; definition := definition s;
     translation := translation s;
     grammaticalCategory := grammaticalCategory s; theme := theme s;
     language := language s; newCategory := newCategory s;
     newTheme := newTheme s; newLanguage := newLanguage s;
     categories := categories s; themeOptions := themeOptions s;
     languageOptions := v; loading := loading s; error := error s;
     rawValues := rawValues s; showModal := showModal s;
     modalMessage := modalMessage s; console := console s |}.

Definition setLoading (v : bool) (s : Form) : Form :=
  {| term := term s; definition := definition s;
     translation := translation s;
     grammaticalCategory := grammaticalCategory s; theme := theme s;
     language := language s; newCategory := newCategory s;
     newTheme := newTheme s; newLanguage := newLanguage s;
     categories := categories s; themeOptions := themeOptions s;
     languageOptions := languageOptions s; loading := v; error := error s;
     rawValues := rawValues s; showModal := showModal s;
     modalMessage := modalMessage s; console := console s |}.

Definition setError (v : option JsString) (s : Form) : Form :=
  {| term := term s; definition := definition s;
     translation := translation s;
     grammaticalCategory := grammaticalCategory s; theme := theme s;
     language := language s; newCategory := newCategory s;
     newTheme := newTheme s; newLanguage := newLanguage s;
     categories := categories s; themeOptions := themeOptions s;
     languageOptions := languageOptions s; loading := loading s; error := v;
     rawValues := rawValues s; showModal := showModal s;
     modalMessage := modalMessage s; console := console s |}.

Definition setRawValues (v : gmap string JsValue) (s : Form) : Form :=
  {| term := term s; definition := definition s;
     translation := translation s;
     grammaticalCategory := grammaticalCategory s; theme := theme s;
     language := language s; newCategory := newCategory s;
     newTheme := newTheme s; newLanguage := newLanguage s;
     categories := categories s; themeOptions := themeOptions s;
     languageOptions := languageOptions s; loading := loading s;
     error := error s; rawValues := v; showModal := showModal s;
     modalMessage := modalMessage s; console := console s |}.

Definition setShowModal (v : bool) (s : Form) : Form :=
  {| term := term s; definition := definition s;
     translation := translation s;
     grammaticalCategory := grammaticalCategory s; theme := theme s;
     language := language s; newCategory := newCategory s;
     newTheme := newTheme s; newLanguage := newLanguage s;
     categories := categories s; themeOptions := themeOptions s;
     languageOptions := languageOptions s; loading := loading s;
     error := error s; rawValues := rawValues s; showModal := v;
     modalMessage := modalMessage s; console := console s |}.

Definition setModalMessage (v : JsString) (s : Form) : Form :=
  {| term := term s; definition := definition s;
     translation := translation s;
     grammaticalCategory := grammaticalCategory s; theme := theme s;
     language := language s; newCategory := newCategory s;
     newTheme := newTheme s; newLanguage := newLanguage s;
     categories := categories s; themeOptions := themeOptions s;
     languageOptions := languageOptions s; loading := loading s;
     error := error s; rawValues := rawValues s; showModal := showModal s;
     modalMessage := v; console := console s |}.

Definition setConsole (v : list JsString) (s : Form) : Form :=
  {| term := term s; definition := definition s;
     translation := translation s;
     grammaticalCategory := grammaticalCategory s; theme := theme s;
     language := language s; newCategory := newCategory s;
     newTheme := newTheme s; newLanguage := newLanguage s;
     categories := categories s; themeOptions := themeOptions s;
     languageOptions := languageOptions s; loading := loading s;
     error := error s; rawValues := rawValues s; showModal := showModal s;
     modalMessage := modalMessage s; console := v |}.

Definition initialForm (p : Props) : Form := {|
  term := or_empty (initial init_term p);
  definition := or_empty (initial init_definition p);
  translation := or_empty (initial init_translation p);
  grammaticalCategory := or_empty (initial init_grammaticalCategory p);
  theme := or_empty (initial init_theme p);
  language := JStr (or_empty (initial init_language p));
  newCategory := []; newTheme := []; newLanguage := [];
  categories := []; themeOptions := []; languageOptions := [];
  loading := false; error := None; rawValues := ∅;
  showModal := false; modalMessage := []; console := [];
|}.

(** [updateRawValues]: the spread of the update wins over the old keys. *)
Definition updateRawValues (updatedValues : gmap string JsValue) (s : Form) : Form :=
  setRawValues (updatedValues ∪ rawValues s) s.

Definition console_error (msg : JsString) (s : Form) : Form :=
  setConsole (console s ++ [msg]) s.

(** The synthetic entries appended to the fetched collections. *)
Definition Other : JsString := js "Other".
Definition otherOption : NamedOption :=
  {| opt_id := js "other"; opt_name := Other |}.
Definition otherLanguage : LanguageOption :=
  {| lang_id := js "other"; lang_name := Other; lang_code := [] |}.

(** *** State and exceptions *)

Inductive Exn : Type :=
  | TypeError
  | Rejection (reason : JsValue).

Inductive Completion (A : Type) : Type :=
  | Normal (a : A)
  | Thrown (e : Exn).
Arguments Normal {A} a.
Arguments Thrown {A} e.

(** A computation over the form state that returns or throws. State
    writes made before a throw stay. *)
Definition M (A : Type) : Type := Form → Completion A * Form.

#[export] Instance M_ret : MRet M := λ A a s, (Normal a, s).
#[export] Instance M_bind : MBind M := λ A B f m s,
  match m s with
  | (Normal a, s') => f a s'
  | (Thrown e, s') => (Thrown e, s')
  end.

Definition throw {A} (e : Exn) : M A := λ s, (Thrown e, s).
Definition modify (f : Form → Form) : M unit := λ s, (Normal (), f s).
Definition lift {A} (c : Completion A) : M A := λ s, (c, s).

(** [try { body } catch (e) { handler e }]. *)
Definition try_catch (body : M unit) (handler : Exn → M unit) : M unit :=
  λ s, match body s with
       | (Normal _, s') => (Normal (), s')
       | (Thrown e, s') => handler e s'
       end.

(** The outcome of an awaited service call. *)
Inductive Fetched (A : Type) : Type :=
  | Resolved (a : A)
  | Rejected (reason : JsValue).
Arguments Resolved {A} a.
Arguments Rejected {A} reason.

Definition await {A} (r : Fetched A) : M A :=
  match r with
  | Resolved a => mret a
  | Rejected reason => throw (Rejection reason)
  end.

(** What the languages service resolves to: the array of languages, or
    something that is not an array. *)
Inductive LanguagesData : Type :=
  | LangArray (l : list LanguageOption)
  | LangNonArray (v : JsValue).

(** Property reads on a value that is not an array. Reading from [null]
    or [undefined] throws; a missing property reads as [undefined]. *)
Definition get_prop (key : string) (ofString : JsString → JsValue)
    (v : JsValue) : M JsValue :=
  match v with
  | JUndefined | JNull => throw TypeError
  | JBool _ | JNum _ => mret JUndefined
  | JStr s => mret (ofString s)
  | JObj props => mret (default JUndefined (props !! key))
  end.

(** [v.length], [v[0]] and [v.name]. *)
Definition get_length : JsValue → M JsValue :=
  get_prop "length" (λ s, JNum (Z.of_nat (length s))).
Definition get_index0 : JsValue → M JsValue :=
  get_prop "0" (λ s, match s with c :: _ => JStr [c] | [] => JUndefined end).
Definition get_name : JsValue → M JsValue :=
  get_prop "name" (λ _, JUndefined).

(** *** Loading the dropdowns (lines 47-85) *)

Section Loading.

(** [v > 0] on a value that is not an array. The comparison converts [v]
    to a number first, which on an object can itself throw; the conversion
    is not modelled, and everything below holds whatever it answers. *)
Variable gt_zero : JsValue → Completion bool.

Variable props : Props.

Definition loadErrorMessage : JsString := js "Error loading data".

(** The [try] block of [fetchData]. *)
Definition fetchBody (categoriesFetch themesFetch : Fetched (list NamedOption))
    (languagesFetch : Fetched LanguagesData) : M unit :=
  categoriesData ← await categoriesFetch;
  themesData ← await themesFetch;
  languagesData ← await languagesFetch;
  modify (setCategories (categoriesData ++ [otherOption]));;
  modify (setThemeOptions (themesData ++ [otherOption]));;
  modify (setLanguageOptions
            match languagesData with
            | LangArray l => l ++ [otherLanguage]
            | LangNonArray _ => []
            end);;
  match categoriesData with
  | c :: _ =>
      if falsy (initial init_grammaticalCategory props)
      then modify (setGrammaticalCategory (opt_name c)) else mret ()
  | [] => mret ()
  end;;
  match themesData with
  | t :: _ =>
      if falsy (initial init_theme props)
      then modify (setTheme (opt_name t)) else mret ()
  | [] => mret ()
  end;;
  match languagesData with
  | LangArray (l :: _) =>
      if falsy (initial init_language props)
      then modify (setLanguage (JStr (lang_name l))) else mret ()
  | LangArray [] => mret ()
  | LangNonArray v =>
      len ← get_length v;
      positive ← lift (gt_zero len);
      if positive && falsy (initial init_language props)
      then first ← get_index0 v;
           name ← get_name first;
           modify (setLanguage name)
      else mret ()
  end.

(** The [catch] block of [fetchData]. *)
Definition fetchCatch (e : Exn) : M unit :=
  modify (console_error loadErrorMessage);;
  modify (setError (Some loadErrorMessage)).

Definition fetchData (categoriesFetch themesFetch : Fetched (list NamedOption))
    (languagesFetch : Fetched LanguagesData) : M unit :=
  try_catch (fetchBody categoriesFetch themesFetch languagesFetch) fetchCatch.

(** The default-selection effect (lines 75-85). It reads the lists of the
    render it belongs to and writes three other fields. *)
Definition defaultSelection (s : Form) : Form :=
  let s1 :=
    match categories s with
    | c :: _ =>
        if falsy (initial init_grammaticalCategory props)
        then setGrammaticalCategory (opt_name c) s else s
    | [] => s
    end in
  let s2 :=
    match themeOptions s with
    | t :: _ =>
        if falsy (initial init_theme props)
        then setTheme (opt_name t) s1 else s1
    | [] => s1
    end in
  match languageOptions s with
  | l :: _ =>
      if falsy (initial init_language props)
      then setLanguage (JStr (lang_name l)) s2 else s2
  | [] => s2
  end.

(** Lines 53-55 are reached exactly when the three awaits resolve; each
    stores a new array, so the default-selection effect runs again. *)
Definition optionsReplaced {A B C} (a : Fetched A) (b : Fetched B)
    (c : Fetched C) : bool :=
  match a, b, c with
  | Resolved _, Resolved _, Resolved _ => true
  | _, _, _ => false
  end.

(** A whole load: [fetchData] settles, then the effects of the render. *)
Definition load (categoriesFetch themesFetch : Fetched (list NamedOption))
    (languagesFetch : Fetched LanguagesData) (s : Form) : Completion unit * Form :=
  let '(c, s') := fetchData categoriesFetch themesFetch languagesFetch s in
  (c, if optionsReplaced categoriesFetch themesFetch languagesFetch
      then defaultSelection s' else s').

(** The state in which the component waits for its data: the first
    render, with the default-selection effect run on the empty lists. *)
Definition mount : Form := defaultSelection (initialForm props).

End Loading.

(** *** Text inputs and dropdowns *)

Definition capitalizeWord (word : JsString) : JsString :=
  toUpperCase (charAt word 0) ++ toLowerCase (slice word 1 None).

(** The inline [onChange] handlers of the text inputs. *)
Definition onChangeTerm (targetValue : JsString) (s : Form) : Form :=
  let value := capitalizeWord targetValue in
  updateRawValues {[ "term" := JStr value ]} (setTerm value s).

Definition onChangeTranslation (targetValue : JsString) (s : Form) : Form :=
  let value := capitalizeWord targetValue in
  updateRawValues {[ "translation" := JStr value ]} (setTranslation value s).

Definition onChangeDefinition (targetValue : JsString) (s : Form) : Form :=
  updateRawValues {[ "definition" := JStr targetValue ]}
    (setDefinition targetValue s).

Definition onChangeNewCategory (targetValue : JsString) (s : Form) : Form :=
  let value := capitalizeWord targetValue in
  updateRawValues {[ "newCategory" := JStr value ]} (setNewCategory value s).

Definition onChangeNewTheme (targetValue : JsString) (s : Form) : Form :=
  let value := capitalizeWord targetValue in
  updateRawValues {[ "newTheme" := JStr value ]} (setNewTheme value s).

Definition onChangeNewLanguage (targetValue : JsString) (s : Form) : Form :=
  let value := capitalizeWord targetValue in
  updateRawValues {[ "newLanguage" := JStr value ]} (setNewLanguage value s).

(** The [onChange] handlers of the three dropdowns. *)
Definition handleCategoryChange (value : JsString) (s : Form) : Form :=
  let s1 := setGrammaticalCategory value s in
  let s2 := if negb (str_eq value Other) then setNewCategory [] s1 else s1 in
  updateRawValues {[ "grammaticalCategory" := JStr value ]} s2.

Definition handleThemeChange (value : JsString) (s : Form) : Form :=
  let s1 := setTheme value s in
  let s2 := if negb (str_eq value Other) then setNewTheme [] s1 else s1 in
  updateRawValues {[ "theme" := JStr value ]} s2.

Definition handleLanguageChange (value : JsString) (s : Form) : Form :=
  let s1 := setLanguage (JStr value) s in
  if negb (str_eq value Other) then
    let s2 := setNewLanguage [] s1 in
    let selectedLanguage :=
      List.find (λ lang, str_eq (lang_name lang) value) (languageOptions s) in
    updateRawValues
      (<[ "language" := JStr value ]>
         {[ "languageCode" := JStr match selectedLanguage with
                                   | Some lang => lang_code lang
                                   | None => []
                                   end ]}) s2
  else
    updateRawValues
      (<[ "language" := JStr value ]> {[ "languageCode" := JStr [] ]}) s1.

Definition handleCloseModal (s : Form) : Form := setShowModal false s.

(** *** Submission (lines 91-119) *)

Record TermData : Type := {
  td_term : JsString;
  td_translation : JsString;
  td_definition : JsString;
  td_grammaticalCategory : JsString;
  td_theme : JsString;
  td_language : JsValue;
}.

(** The payload built from the state of the render (lines 96-103). *)
Definition termData (s : Form) : TermData := {|
  td_term := term s;
  td_translation := translation s;
  td_definition := definition s;
  td_grammaticalCategory :=
    if str_eq (grammaticalCategory s) Other then newCategory s
    else grammaticalCategory s;
  td_theme := if str_eq (theme s) Other then newTheme s else theme s;
  td_language :=
    if strict_eq_str (language s) Other then JStr (newLanguage s)
    else language s;
|}.

(** The request sent to the term service. *)
Inductive Request : Type :=
  | UpdateTerm (id : JsString) (data : TermData)
  | AddTerm (data : TermData).

Definition submitRequest (p : Props) (s : Form) : Request :=
  match termId p with
  | Some id => if truthy id then UpdateTerm id (termData s) else AddTerm (termData s)
  | None => AddTerm (termData s)
  end.

Definition successMessage : JsString :=
  js "Your term has been submitted successfully. A moderator is going to review it soon.".
Definition submitErrorMessage : JsString :=
  js "An error occurred while submitting the term.".

(** [handleSubmit]: the request it sends and the state once the service
    call has settled. *)
Definition handleSubmit (p : Props) (response : Fetched unit) (s : Form)
    : Request * Form :=
  let s1 := setError None (setLoading true s) in
  let s2 :=
    match response with
    | Resolved _ => setShowModal true (setModalMessage successMessage s1)
    | Rejected _ =>
        setError (Some submitErrorMessage)
          (console_error (js "Error submitting term") s1)
    end in
  (submitRequest p s, setLoading false s2).

(** *** User events *)

Inductive Event : Type :=
  | TermInput (value : JsString)
  | TranslationInput (value : JsString)
  | DefinitionInput (value : JsString)
  | CategorySelect (value : JsString)
  | ThemeSelect (value : JsString)
  | LanguageSelect (value : JsString)
  | NewCategoryInput (value : JsString)
  | NewThemeInput (value : JsString)
  | NewLanguageInput (value : JsString).

(** Whether the control an event comes from is on the page. The three
    free-text inputs are rendered only while their dropdown shows "Other"
    (lines 234, 261, 288). A dropdown is taken to send any value; a
    browser sends the name of one of its options. *)
Definition rendered (e : Event) (s : Form) : bool :=
  match e with
  | NewCategoryInput _ => str_eq (grammaticalCategory s) Other
  | NewThemeInput _ => str_eq (theme s) Other
  | NewLanguageInput _ => strict_eq_str (language s) Other
  | _ => true
  end.

Definition handle (e : Event) (s : Form) : Form :=
  match e with
  | TermInput v => onChangeTerm v s
  | TranslationInput v => onChangeTranslation v s
  | DefinitionInput v => onChangeDefinition v s
  | CategorySelect v => handleCategoryChange v s
  | ThemeSelect v => handleThemeChange v s
  | LanguageSelect v => handleLanguageChange v s
  | NewCategoryInput v => onChangeNewCategory v s
  | NewThemeInput v => onChangeNewTheme v s
  | NewLanguageInput v => onChangeNewLanguage v s
  end.

(** One user event; [None] when its control is not on the page. *)
Definition step (s : Form) (e : Event) : option Form :=
  if rendered e s then Some (handle e s) else None.

Fixpoint run (s : Form) (es : list Event) : option Form :=
  match es with
  | [] => Some s
  | e :: es' => s' ← step s e; run s' es'
  end.

(** The states of a form with props [p]: the first render, the state
    after the data has arrived, and whatever user events lead to. *)
Inductive reachable (gt_zero : JsValue → Completion bool) (p : Props)
    : Form → Prop :=
  | reachable_mount : reachable gt_zero p (mount p)
  | reachable_load cf tf lf :
      reachable gt_zero p (load gt_zero p cf tf lf (mount p)).2
  | reachable_step s e s' :
      reachable gt_zero p s → step s e = Some s' → reachable gt_zero p s'.

(** *** The capitalisation as the specification words it *)

(** First character upcased, remainder downcased. *)
Definition upcase_first_downcase_rest (w : JsString) : JsString :=
  match w with
  | [] => []
  | c :: rest => toUpperCase [c] ++ toLowerCase rest
  end.

(** *** The default selection as the specification words it *)

(** An initial value counts as supplied when it is there and not empty. *)
Definition supplied (v : option JsString) : Prop := ∃ s, v = Some s ∧ s ≠ [].

(** The first fetched item if no initial value was supplied, the initial
    value otherwise. *)
Definition defaulted (init : option JsString) (first : JsString) : JsString :=
  match init with
  | Some v => if decide (v = []) then first else v
  | None => first
  end.

(** *** Assertions *)

(** No free text is kept for a dropdown that does not show "Other". *)
Definition no_stale_text (s : Form) : Prop :=
  (grammaticalCategory s ≠ Other → newCategory s = []) ∧
  (theme s ≠ Other → newTheme s = []) ∧
  (language s ≠ JStr Other → newLanguage s = []).

(** [triple P m Q E]: started in a state satisfying [P], the computation
    [m] returns [a] in a state satisfying [Q a], or throws [e] in a state
    satisfying [E e]. *)
Definition triple {A} (P : Form → Prop) (m : M A)
    (Q : A → Form → Prop) (E : Exn → Form → Prop) : Prop :=
  ∀ s, P s → match m s with
             | (Normal a, s') => Q a s'
             | (Thrown e, s') => E e s'
             end.

(** [m] keeps [I], whether it returns or throws. *)
Definition preserves {A} (I : Form → Prop) (m : M A) : Prop :=
  triple I m (λ _, I) (λ _, I).

(** The three free texts are [a], [b] and [c]. *)
Definition text_is (a b c : JsString) (s : Form) : Prop :=
  newCategory s = a ∧ newTheme s = b ∧ newLanguage s = c.

(** The error message and the console are as given. *)
Definition quiet (e0 : option JsString) (c0 : list JsString) (s : Form) : Prop :=
  error s = e0 ∧ console s = c0.

(** On top of that, the language dropdown has no options. *)
Definition no_languages (e0 : option JsString) (c0 : list JsString)
    (s : Form) : Prop :=
  languageOptions s = [] ∧ quiet e0 c0 s.

(** The three dropdown lists hold what the services resolved to, each
    with the synthetic entry at its end. *)
Definition options_stored (cs ts : list NamedOption) (ld : LanguagesData)
    (s : Form) : Prop :=
  categories s = cs ++ [otherOption] ∧
  themeOptions s = ts ++ [otherOption] ∧
  languageOptions s = match ld with
                      | LangArray l => l ++ [otherLanguage]
                      | LangNonArray _ => []
                      end.

End TermForm.

(** ** Sample data *)

Module Samples.
Import JS.

Definition category (name : string) : HomePage.Category :=
  {| HomePage.category_id := js name; HomePage.category_name := js name;
     HomePage.category_isApproved := true |}.

Definition general : HomePage.Theme :=
  {| HomePage.theme_id := js "t1"; HomePage.theme_name := js "General";
     HomePage.theme_isApproved := true |}.

Definition french : HomePage.Language :=
  {| HomePage.language_id := js "l1"; HomePage.language_name := js "French";
     HomePage.language_code := js "fr"; HomePage.language_isApproved := true |}.

Definition entry (id text meaning cat : string) : HomePage.Term :=
  {| HomePage._id := js id; HomePage.term := js text;
     HomePage.definition := js meaning;
     HomePage.grammaticalCategory := category cat;
     HomePage.theme := general; HomePage.language := french;
     HomePage.status := js "approved" |}.

Definition chat : HomePage.Term := entry "1" "Chat" "Animal domestique" "Noun".
Definition rapide : HomePage.Term := entry "2" "Rapide" "Vite" "Adjective".

(** Eleven terms: enough for a second page. *)
Definition eleven : list HomePage.Term := replicate 11 chat.

Definition noun : TermForm.NamedOption :=
  {| TermForm.opt_id := js "c1"; TermForm.opt_name := js "Noun" |}.

Definition frenchOption : TermForm.LanguageOption :=
  {| TermForm.lang_id := js "l1"; TermForm.lang_name := js "French";
     TermForm.lang_code := js "fr" |}.

Definition englishOption : TermForm.LanguageOption :=
  {| TermForm.lang_id := js "l2"; TermForm.lang_name := js "English";
     TermForm.lang_code := js "en" |}.

(** A form opened without props, and one opened to edit an English term. *)
Definition createProps : TermForm.Props :=
  {| TermForm.termId := None; TermForm.initialData := None |}.

Definition editProps : TermForm.Props :=
  {| TermForm.termId := Some (js "42");
     TermForm.initialData := Some
       {| TermForm.init_term := js "Cat";
          TermForm.init_translation := js "Chat";
          TermForm.init_definition := js "A small domesticated animal";
          TermForm.init_grammaticalCategory := js "Noun";
          TermForm.init_theme := js "General";
          TermForm.init_language := js "English" |} |}.

(** A comparison that never finds its operand positive. *)
Definition never_positive (v : JsValue) : TermForm.Completion bool :=
  TermForm.Normal false.

(** A new form whose data has arrived, and the same form after choosing
    "Other", typing "verb", and going back to "Noun". *)
Definition loaded : TermForm.Form :=
  (TermForm.load never_positive createProps
     (TermForm.Resolved [noun]) (TermForm.Resolved [])
     (TermForm.Resolved (TermForm.LangArray [frenchOption; englishOption]))
     (TermForm.mount createProps)).2.

Definition otherChosen : TermForm.Form :=
  TermForm.handle (TermForm.CategorySelect TermForm.Other) loaded.

Definition verbTyped : TermForm.Form :=
  TermForm.handle (TermForm.NewCategoryInput (js "verb")) otherChosen.

Definition backToNoun : TermForm.Form :=
  TermForm.handle (TermForm.CategorySelect (js "Noun")) verbTyped.

End Samples.

(** ** Further notions *)

Module Notions.
Import JS.

(** The number of buttons the [Pagination] component renders. *)
Definition pageCount (totalTerms : nat) : nat :=
  Z.to_nat ((Z.of_nat totalTerms + HomePage.termsPerPage - 1)
            / HomePage.termsPerPage).

(** Every filter option on offer comes from an approved entry. *)
Definition offers_approved_only (s : HomePage.State) : Prop :=
  Forall (λ c, HomePage.category_isApproved c = true) (HomePage.categories s) ∧
  Forall (λ t, HomePage.theme_isApproved t = true) (HomePage.themes s) ∧
  Forall (λ l, HomePage.language_isApproved l = true) (HomePage.languages s).

(** The filter input an event writes, if it writes one. *)
Definition dimension (e : HomePage.Event) : option nat :=
  match e with
  | HomePage.SelectCategory _ => Some 0%nat
  | HomePage.SelectTheme _ => Some 1%nat
  | HomePage.SelectLanguage _ => Some 2%nat
  | HomePage.SearchChange _ => Some 3%nat
  | _ => None
  end.

(** Text of the Basic Latin and Latin-1 Supplement blocks, the range the
    case tables cover. *)
Definition latin1 (w : JsString) : Prop := Forall (λ c, c ≤ 0xFF) w.

(** Text of the Basic Latin and Latin-1 Supplement blocks without the
    three characters whose upper-case form does not map back: U+00B5,
    U+00DF and U+00FF. *)
Definition plain_latin (q : JsString) : Prop :=
  Forall (λ c, c < 0xFF ∧ c ≠ 0xB5 ∧ c ≠ 0xDF) q.

(** What a load that ends in its [catch] block leaves of a state. *)
Definition after_failed_load (s : TermForm.Form) : TermForm.Form :=
  TermForm.setError (Some TermForm.loadErrorMessage)
    (TermForm.console_error TermForm.loadErrorMessage s).

(** Where [rawValues] has one of the six main keys, it holds the value of
    the state field of that name. *)
Definition raw_mirrors (s : TermForm.Form) : Prop :=
  (∀ v, TermForm.rawValues s !! "term" = Some v → v = JStr (TermForm.term s)) ∧
  (∀ v, TermForm.rawValues s !! "translation" = Some v →
        v = JStr (TermForm.translation s)) ∧
  (∀ v, TermForm.rawValues s !! "definition" = Some v →
        v = JStr (TermForm.definition s)) ∧
  (∀ v, TermForm.rawValues s !! "grammaticalCategory" = Some v →
        v = JStr (TermForm.grammaticalCategory s)) ∧
  (∀ v, TermForm.rawValues s !! "theme" = Some v →
        v = JStr (TermForm.theme s)) ∧
  (∀ v, TermForm.rawValues s !! "language" = Some v →
        v = TermForm.language s).

(** The word "Straße", with its sharp s, as a term and as a query. *)
Definition strasse : JsString := js "Stra" ++ [0xDF] ++ js "e".

Definition strasseTerm : HomePage.Term :=
  {| HomePage._id := js "3"; HomePage.term := strasse;
     HomePage.definition := js "road";
     HomePage.grammaticalCategory := Samples.category "Noun";
     HomePage.theme := Samples.general; HomePage.language := Samples.french;
     HomePage.status := js "approved" |}.

(** Eleven approved terms on the listing. *)
Definition elevenLoaded : HomePage.State :=
  HomePage.run HomePage.mount [HomePage.TermsLoaded (Some Samples.eleven)].

(** The submit button pressed once per service outcome in [responses]:
    the requests sent, in order, and the state at the end. *)
Fixpoint submitAll (p : TermForm.Props) (responses : list (TermForm.Fetched ()))
    (s : TermForm.Form) : list TermForm.Request * TermForm.Form :=
  match responses with
  | [] => ([], s)
  | r :: rest =>
      let '(q, s1) := TermForm.handleSubmit p r s in
      let '(qs, s2) := submitAll p rest s1 in
      (q :: qs, s2)
  end.

End Notions.

(** * Properties *)

(** ** Strings and slices *)

Module JSFacts.
Import JS.

Lemma truthy_false (s : JsString) : truthy s = false ↔ s = [].
Proof. destruct s; simpl; split; congruence. Qed.

Lemma truthy_true (s : JsString) : truthy s = true ↔ s ≠ [].
Proof. destruct s; simpl; split; congruence. Qed.

Lemma str_eq_true (a b : JsString) : str_eq a b = true ↔ a = b.
Proof. unfold str_eq. apply bool_decide_eq_true. Qed.

Lemma str_eq_false (a b : JsString) : str_eq a b = false ↔ a ≠ b.
Proof. unfold str_eq. apply bool_decide_eq_false. Qed.

Lemma str_eq_refl (a : JsString) : str_eq a a = true.
Proof. by apply str_eq_true. Qed.

Lemma starts_with_spec (p s : JsString) :
  starts_with p s = true ↔ ∃ post, s = p ++ post.
Proof.
  revert s. induction p as [|a p IH]; intros s; simpl.
  - split; [intros _; by exists s | done].
  - destruct s as [|b s].
    + split; [done | intros [post H]; discriminate H].
    + rewrite andb_true_iff, N.eqb_eq, IH. split.
      * intros [-> [post ->]]. by exists post.
      * intros [post H]. injection H as -> ->. eauto.
Qed.

Lemma includes_spec (s sub : JsString) :
  includes s sub = true ↔ ∃ pre post, s = pre ++ sub ++ post.
Proof.
  induction s as [|a s IH]; simpl; rewrite orb_true_iff, starts_with_spec.
  - split.
    + intros [[post H] | H]; [|done]. by exists [], post.
    + intros (pre & post & H). left.
      destruct pre; [by exists post | discriminate H].
  - rewrite IH. split.
    + intros [[post H] | (pre & post & H)].
      * by exists [], post.
      * exists (a :: pre), post. by rewrite H.
    + intros (pre & post & H). destruct pre as [|b pre]; simpl in H.
      * left. by exists post.
      * right. injection H as _ ->. by exists pre, post.
Qed.

Lemma includes_empty (s : JsString) : includes s [] = true.
Proof. destruct s; reflexivity. Qed.

(** The slice between two indices that are not negative. *)
Lemma slice_window {A} (xs : list A) (i n : nat) :
  slice xs (Z.of_nat i) (Some (Z.of_nat (i + n))) = take n (drop i xs).
Proof.
  unfold slice, clamp_index.
  rewrite !(proj2 (Z.ltb_ge _ 0)) by lia.
  destruct (decide (i ≤ length xs)%nat) as [Hi|Hi].
  - replace (Z.to_nat (Z.of_nat i `min` Z.of_nat (length xs))) with i by lia.
    destruct (decide (i + n ≤ length xs)%nat) as [Hn|Hn].
    + f_equal. lia.
    + replace (Z.to_nat (Z.of_nat (i + n) `min` Z.of_nat (length xs)) - i)%nat
        with (length (drop i xs)) by (rewrite length_drop; lia).
      rewrite firstn_all. symmetry. apply take_ge. rewrite length_drop. lia.
  - rewrite !drop_ge by lia. by rewrite !take_nil.
Qed.

Lemma slice_from {A} (xs : list A) (i : nat) :
  slice xs (Z.of_nat i) None = drop i xs.
Proof.
  unfold slice, clamp_index.
  rewrite (proj2 (Z.ltb_ge _ 0)) by lia.
  destruct (decide (i ≤ length xs)%nat) as [Hi|Hi].
  - replace (Z.to_nat (Z.of_nat i `min` Z.of_nat (length xs))) with i by lia.
    apply take_ge. rewrite length_drop. lia.
  - rewrite !drop_ge by lia. by rewrite take_nil.
Qed.

(** Case analysis on the tests of a case table, with the outcomes turned
    into arithmetic facts. *)
Ltac split_units :=
  repeat match goal with
  | |- context [if ?b then _ else _] => let E := fresh "E" in destruct b eqn:E
  end;
  rewrite ?andb_true_iff, ?andb_false_iff, ?negb_true_iff, ?negb_false_iff,
    ?N.leb_le, ?N.leb_gt, ?N.eqb_eq, ?N.eqb_neq in *.

Lemma lower_unit_idem (c : N) : lower_unit (lower_unit c) = lower_unit c.
Proof.
  unfold lower_unit at 2 3.
  split_units; unfold lower_unit; split_units; try reflexivity; lia.
Qed.

Lemma toLowerCase_idem (s : JsString) :
  toLowerCase (toLowerCase s) = toLowerCase s.
Proof.
  unfold toLowerCase. rewrite <- list_fmap_compose.
  apply list_fmap_ext. intros _ c _. apply lower_unit_idem.
Qed.

(** A code unit whose upper-case form is one unit long maps to a unit that
    upper-casing leaves alone. *)
Lemma upper_unit_single (c u : N) : upper_unit c = [u] → upper_unit u = [u].
Proof.
  unfold upper_unit at 1.
  split_units; intros [= <-]; unfold upper_unit; split_units;
    try reflexivity; lia.
Qed.

Lemma upper_unit_length (c : N) : (1 ≤ length (upper_unit c))%nat.
Proof. unfold upper_unit. split_units; simpl; lia. Qed.

End JSFacts.

(** ** The listing view *)

Module HomePageFacts.
Import JS JSFacts HomePage.

(** [Selects] fixes the kept list, its members and their order. *)
Lemma Selects_unique {A} (P : A → Prop) xs ys zs :
  Selects P xs ys → Selects P xs zs → ys = zs.
Proof.
  intros H. revert zs.
  induction H as [|x xs ys Hx _ IH|x xs ys Hx _ IH]; intros zs Hz;
    inversion Hz; subst; try done.
  by f_equal; apply IH.
  by apply IH.
Qed.

Lemma Selects_elem_of {A} (P : A → Prop) xs ys :
  Selects P xs ys → ∀ x, x ∈ ys ↔ x ∈ xs ∧ P x.
Proof.
  induction 1 as [|y xs ys Hy _ IH|y xs ys Hy _ IH]; intros x.
  - split; [by intros ?%elem_of_nil | by intros [?%elem_of_nil _]].
  - rewrite !elem_of_cons, IH. intuition (subst; tauto).
  - rewrite elem_of_cons, IH. intuition (subst; tauto).
Qed.

Lemma Selects_sublist {A} (P : A → Prop) xs ys : Selects P xs ys → sublist ys xs.
Proof. induction 1; by constructor. Qed.

(** A boolean test that decides [P] makes [List.filter] select by [P]. *)
Lemma filter_Selects {A} (P : A → Prop) (f : A → bool) xs :
  (∀ x, f x = true ↔ P x) → Selects P xs (List.filter f xs).
Proof.
  intros Hf. induction xs as [|x xs IH]; simpl; [constructor|].
  destruct (f x) eqn:E.
  - apply Selects_keep; [by apply Hf | done].
  - apply Selects_drop; [|done]. rewrite <- Hf. congruence.
Qed.

(** One dimension of the filter: the ternary of the source against the
    disjunction of the specification. *)
Lemma dimension_spec (selected name : JsString) :
  (if truthy selected then str_eq name selected else true) = true
  ↔ selected = [] ∨ name = selected.
Proof.
  destruct selected as [|c selected]; simpl; [tauto|].
  rewrite str_eq_true. intuition congruence.
Qed.

Lemma search_spec (search text : JsString) :
  includes (toLowerCase text) (toLowerCase search) = true
  ↔ ci_substring search text.
Proof. apply includes_spec. Qed.

Lemma search_empty (text : JsString) :
  includes (toLowerCase text) (toLowerCase []) = true.
Proof. apply includes_empty. Qed.

Lemma matches_spec selCategory selTheme selLanguage search t :
  matches selCategory selTheme selLanguage search t = true
  ↔ Passes selCategory selTheme selLanguage search t.
Proof.
  unfold matches, Passes.
  rewrite !andb_true_iff, orb_true_iff, !dimension_spec, !search_spec.
  split.
  - tauto.
  - intros (Hc & Ht & Hl & Hs). repeat split; try done.
    destruct Hs as [-> | Hs]; [|done].
    left. exists [], (toLowerCase (term t)). reflexivity.
Qed.

Lemma filterEffect_in_sync s : in_sync (filterEffect s).
Proof. reflexivity. Qed.

Lemma step_in_sync s e : in_sync s → in_sync (step s e).
Proof.
  intros Hs. unfold step.
  destruct (depsChanged e s (handle e s)) eqn:Hd; [apply filterEffect_in_sync|].
  destruct e as [[data|]| | | | | | | | |]; simpl in Hd; try discriminate Hd;
    rewrite !orb_false_iff, !negb_false_iff, !str_eq_true in Hd;
    destruct Hd as [[[Hc Ht] Hl] Hq]; unfold in_sync in *; simpl in *;
    try done; by rewrite <- ?Hc, <- ?Ht, <- ?Hl, <- ?Hq.
Qed.

Lemma run_in_sync es s : in_sync s → in_sync (run s es).
Proof.
  revert s. induction es as [|e es IH]; intros s Hs; simpl; [done|].
  apply IH, step_in_sync, Hs.
Qed.

Lemma step_currentPage s e :
  currentPage (step s e) = match e with
                           | Paginate n => n
                           | _ => currentPage s
                           end.
Proof.
  unfold step. destruct (depsChanged e s (handle e s));
    destruct e as [[data|]| | | | | | | | |]; reflexivity.
Qed.

Lemma pageNumbers_positive (totalTerms : nat) (k : Z) :
  k ∈ pageNumbers totalTerms → (1 ≤ k)%Z.
Proof. unfold pageNumbers. rewrite elem_of_seqZ. lia. Qed.

(** The effect writes [filteredTerms] only. *)
Lemma step_frame s e :
  let s' := step s e in
  terms s' = terms (handle e s) ∧
  selectedCategory s' = selectedCategory (handle e s) ∧
  selectedTheme s' = selectedTheme (handle e s) ∧
  selectedLanguage s' = selectedLanguage (handle e s) ∧
  searchTerm s' = searchTerm (handle e s).
Proof. unfold step. by destruct (depsChanged e s (handle e s)). Qed.

Lemma step_changed_in_sync s e :
  depsChanged e s (handle e s) = true → in_sync (step s e).
Proof. unfold step. intros ->. apply filterEffect_in_sync. Qed.

Lemma toggle_spec (option selected : JsString) :
  (if str_eq option selected then [] else option)
  = if decide (option = selected) then [] else option.
Proof. unfold str_eq. case_bool_decide; case_decide; done. Qed.

(** Two clicks on an option that was not selected. *)
Lemma toggle_twice (option selected : JsString) :
  selected ≠ option →
  (if str_eq option (if str_eq option selected then [] else option)
   then [] else option) = [].
Proof.
  intros Hne. rewrite (proj2 (str_eq_false option selected)) by done.
  by rewrite str_eq_refl.
Qed.

(** With no selection and no search text every term passes. *)
Lemma filterTerms_unconstrained ts : filterTerms [] [] [] [] ts = ts.
Proof.
  unfold filterTerms. induction ts as [|t ts IH]; [done|].
  simpl. unfold matches at 1. simpl. rewrite includes_empty. simpl.
  by rewrite IH.
Qed.

End HomePageFacts.

Module HomePageProps.
Import JS JSFacts HomePage HomePageFacts.

(** C1. For every list of terms and every filter state, the filtered list
    that HomePage computes is exactly the sub-list of the source terms
    that satisfy the four conditions: no category selected or the term's
    category name is the selection, the same for theme and for language,
    and the search string is empty or is a case-insensitive substring of
    the term text or of the definition. This holds of the filter itself,
    of the list the filtering effect stores, and of the stored list after
    any sequence of events. *)
Theorem filtered_terms_exact :
  (∀ selCategory selTheme selLanguage search ts,
     Selects (Passes selCategory selTheme selLanguage search) ts
       (filterTerms selCategory selTheme selLanguage search ts)) ∧
  (∀ selCategory selTheme selLanguage search ts t,
     t ∈ filterTerms selCategory selTheme selLanguage search ts
     ↔ t ∈ ts ∧ Passes selCategory selTheme selLanguage search t) ∧
  (∀ s,
     Selects (Passes (selectedCategory s) (selectedTheme s)
                (selectedLanguage s) (searchTerm s))
       (terms s) (filteredTerms (filterEffect s))) ∧
  (∀ es,
     let s := run mount es in
     Selects (Passes (selectedCategory s) (selectedTheme s)
                (selectedLanguage s) (searchTerm s))
       (terms s) (filteredTerms s)).
Proof.
  assert (∀ selCategory selTheme selLanguage search ts,
     Selects (Passes selCategory selTheme selLanguage search) ts
       (filterTerms selCategory selTheme selLanguage search ts)) as Hsel.
  { intros. apply filter_Selects. intros t. apply matches_spec. }
  split_and!.
  - exact Hsel.
  - intros. apply Selects_elem_of, Hsel.
  - intros s. apply Hsel.
  - intros es s.
    assert (in_sync s) as ->; [|apply Hsel].
    apply run_in_sync, filterEffect_in_sync.
Qed.

(** The scenario of the specification: searching "chat" keeps the term
    "Chat" and drops "Rapide". *)
Example search_chat :
  filteredTerms
    (run mount [TermsLoaded (Some [Samples.chat; Samples.rapide]);
                SearchChange (js "chat")])
  = [Samples.chat].
Proof. reflexivity. Qed.

(** C2. For every filtered list and every page number k >= 1, the page on
    display is the slice of the filtered list from index 10*(k-1)
    inclusive to index 10*k exclusive; when 10*(k-1) is at or past the
    end of the list the page is empty. The page is computed by a total
    function: no input makes it fail. *)
Theorem page_is_slice (s : State) (k : Z) :
  currentPage s = k → (1 ≤ k)%Z →
  let first := Z.to_nat (10 * (k - 1)) in
  currentTerms s = take 10 (drop first (filteredTerms s)) ∧
  (∀ i : nat,
     currentTerms s !! i =
     if decide (i < 10)%nat then filteredTerms s !! (first + i)%nat else None) ∧
  ((length (filteredTerms s) ≤ first)%nat → currentTerms s = []).
Proof.
  intros Hk Hpos first.
  assert (currentTerms s = take 10 (drop first (filteredTerms s))) as Hcur.
  { unfold currentTerms, indexOfFirstTerm, indexOfLastTerm, termsPerPage.
    rewrite Hk.
    replace (k * 10 - 10)%Z with (Z.of_nat first) by lia.
    replace (k * 10)%Z with (Z.of_nat (first + 10)) by lia.
    apply slice_window. }
  split_and!.
  - exact Hcur.
  - intros i. rewrite Hcur, lookup_take, lookup_drop. reflexivity.
  - intros Hlen. rewrite Hcur, drop_ge by lia. apply take_nil.
Qed.

(** On page 2 of eleven terms there is one term; on page 3 there is none. *)
Lemma page_is_slice_witness :
  currentTerms (run mount [TermsLoaded (Some Samples.eleven); Paginate 2])
    = [Samples.chat] ∧
  currentTerms (run mount [TermsLoaded (Some Samples.eleven); Paginate 3]) = [].
Proof.
  split.
  - apply (page_is_slice
             (run mount [TermsLoaded (Some Samples.eleven); Paginate 2]) 2);
      [reflexivity | lia].
  - apply (page_is_slice
             (run mount [TermsLoaded (Some Samples.eleven); Paginate 3]) 3);
      [reflexivity | lia | simpl; lia].
Defined.

(** With nothing selected in a dimension, two terms that differ only in
    that dimension fare alike. *)
Lemma unselected_category_free selTheme selLanguage search t t' :
  theme t = theme t' → language t = language t' →
  term t = term t' → definition t = definition t' →
  matches [] selTheme selLanguage search t
  = matches [] selTheme selLanguage search t'.
Proof. unfold matches. by intros -> -> -> ->. Qed.

Lemma unselected_theme_free selCategory selLanguage search t t' :
  grammaticalCategory t = grammaticalCategory t' → language t = language t' →
  term t = term t' → definition t = definition t' →
  matches selCategory [] selLanguage search t
  = matches selCategory [] selLanguage search t'.
Proof. unfold matches. by intros -> -> -> ->. Qed.

Lemma unselected_language_free selCategory selTheme search t t' :
  grammaticalCategory t = grammaticalCategory t' → theme t = theme t' →
  term t = term t' → definition t = definition t' →
  matches selCategory selTheme [] search t
  = matches selCategory selTheme [] search t'.
Proof. unfold matches. by intros -> -> -> ->. Qed.

(** C4. In each filter dimension, selecting the option that is the current
    selection resets the selection to the empty string, and an empty
    selection does not constrain the filtered list; selecting another
    option replaces the selection. Selecting an option that was not
    selected twice in a row therefore ends with the empty selection, and
    with no other filter set the whole list of terms is shown again. *)
Theorem select_toggles (s : State) (option : JsString) :
  (selectedCategory (step s (SelectCategory option))
     = if decide (option = selectedCategory s) then [] else option) ∧
  (selectedTheme (step s (SelectTheme option))
     = if decide (option = selectedTheme s) then [] else option) ∧
  (selectedLanguage (step s (SelectLanguage option))
     = if decide (option = selectedLanguage s) then [] else option) ∧
  (selectedCategory s ≠ option →
     selectedCategory (run s [SelectCategory option; SelectCategory option]) = []) ∧
  (selectedTheme s ≠ option →
     selectedTheme (run s [SelectTheme option; SelectTheme option]) = []) ∧
  (selectedLanguage s ≠ option →
     selectedLanguage (run s [SelectLanguage option; SelectLanguage option]) = []) ∧
  (selectedCategory s = [] → selectedTheme s = [] →
   selectedLanguage s = [] → searchTerm s = [] → option ≠ [] →
     filteredTerms (run s [SelectCategory option; SelectCategory option])
     = terms s) ∧
  (∀ t t', theme t = theme t' → language t = language t' →
     term t = term t' → definition t = definition t' →
     matches [] (selectedTheme s) (selectedLanguage s) (searchTerm s) t
     = matches [] (selectedTheme s) (selectedLanguage s) (searchTerm s) t') ∧
  (∀ t t', grammaticalCategory t = grammaticalCategory t' →
     language t = language t' → term t = term t' →
     definition t = definition t' →
     matches (selectedCategory s) [] (selectedLanguage s) (searchTerm s) t
     = matches (selectedCategory s) [] (selectedLanguage s) (searchTerm s) t') ∧
  (∀ t t', grammaticalCategory t = grammaticalCategory t' →
     theme t = theme t' → term t = term t' → definition t = definition t' →
     matches (selectedCategory s) (selectedTheme s) [] (searchTerm s) t
     = matches (selectedCategory s) (selectedTheme s) [] (searchTerm s) t').
Proof.
  pose proof (step_frame s (SelectCategory option))
    as (Ht1 & Hc1 & Hh1 & Hl1 & Hq1).
  pose proof (step_frame s (SelectTheme option)) as (_ & _ & Hh2 & _ & _).
  pose proof (step_frame s (SelectLanguage option)) as (_ & _ & _ & Hl3 & _).
  cbn [handle onSelectCategory onSelectTheme onSelectLanguage
       setSelectedCategory setSelectedTheme setSelectedLanguage
       terms selectedCategory selectedTheme selectedLanguage searchTerm] in *.
  split_and!.
  - rewrite Hc1. apply toggle_spec.
  - rewrite Hh2. apply toggle_spec.
  - rewrite Hl3. apply toggle_spec.
  - intros Hne. cbn [run foldl].
    rewrite (proj1 (proj2 (step_frame _ _))).
    cbn [handle onSelectCategory setSelectedCategory selectedCategory].
    rewrite Hc1. by apply toggle_twice.
  - intros Hne. cbn [run foldl].
    rewrite (proj1 (proj2 (proj2 (step_frame _ _)))).
    cbn [handle onSelectTheme setSelectedTheme selectedTheme].
    rewrite Hh2. by apply toggle_twice.
  - intros Hne. cbn [run foldl].
    rewrite (proj1 (proj2 (proj2 (proj2 (step_frame _ _))))).
    cbn [handle onSelectLanguage setSelectedLanguage selectedLanguage].
    rewrite Hl3. by apply toggle_twice.
  - intros Hc Ht Hl Hq Hne. cbn [run foldl].
    set (s1 := step s (SelectCategory option)) in *.
    pose proof (step_frame s1 (SelectCategory option))
      as (Ht2 & Hc2 & Hh2' & Hl2 & Hq2).
    cbn [handle onSelectCategory setSelectedCategory
         terms selectedCategory selectedTheme selectedLanguage searchTerm] in *.
    rewrite Hc1, toggle_twice in Hc2 by congruence.
    rewrite step_changed_in_sync.
    + rewrite Hc2, Hh2', Hl2, Hq2, Ht2, Hh1, Hl1, Hq1, Ht1, Ht, Hl, Hq.
      apply filterTerms_unconstrained.
    + cbn [depsChanged handle onSelectCategory setSelectedCategory
           selectedCategory].
      rewrite Hc1, toggle_twice by congruence.
      rewrite Hc, (proj2 (str_eq_false option [])) by done.
      by rewrite (proj2 (str_eq_false option [])).
  - apply unselected_category_free.
  - apply unselected_theme_free.
  - apply unselected_language_free.
Qed.

(** Selecting "Noun" and then "Noun" again, on the two terms of the
    specification's scenario: after the first click only "Chat" is left,
    after the second the selection is empty and both terms are back. *)
Lemma select_toggles_witness :
  let s := run mount [TermsLoaded (Some [Samples.chat; Samples.rapide])] in
  filteredTerms (step s (SelectCategory (js "Noun"))) = [Samples.chat] ∧
  selectedCategory (run s [SelectCategory (js "Noun"); SelectCategory (js "Noun")])
    = [] ∧
  filteredTerms (run s [SelectCategory (js "Noun"); SelectCategory (js "Noun")])
    = [Samples.chat; Samples.rapide].
Proof.
  intros s.
  destruct (select_toggles s (js "Noun"))
    as (_ & _ & _ & Htwice & _ & _ & Hall & _).
  split_and!.
  - reflexivity.
  - apply Htwice. discriminate.
  - apply Hall; [reflexivity.. | discriminate].
Defined.

(** C8. Changing a filter input - the selected category, theme or
    language, or the search text - leaves the page number as it was, and
    so does every event other than the paginate action; the page number
    starts at 1 and the paginate action sets it. After the filters have
    been narrowed the page that was selected can show an empty list. *)
Theorem filters_keep_page :
  currentPage mount = 1%Z ∧
  (∀ s option, currentPage (step s (SelectCategory option)) = currentPage s) ∧
  (∀ s option, currentPage (step s (SelectTheme option)) = currentPage s) ∧
  (∀ s option, currentPage (step s (SelectLanguage option)) = currentPage s) ∧
  (∀ s value, currentPage (step s (SearchChange value)) = currentPage s) ∧
  (∀ s e, is_paginate e = false → currentPage (step s e) = currentPage s) ∧
  (∀ s n, currentPage (step s (Paginate n)) = n) ∧
  (let s := run mount [TermsLoaded (Some Samples.eleven); Paginate 2] in
   let s' := step s (SearchChange (js "vite")) in
   currentTerms s = [Samples.chat] ∧ currentPage s' = 2%Z ∧ currentTerms s' = []).
Proof.
  split_and!; try (intros; by rewrite step_currentPage); try reflexivity.
  - intros s e He. rewrite step_currentPage. by destruct e.
  - by split_and!.
Qed.

(** A category click on page 2 stays on page 2. *)
Lemma filters_keep_page_witness :
  currentPage
    (step (run mount [TermsLoaded (Some Samples.eleven); Paginate 2])
       (SelectCategory (js "Noun"))) = 2%Z.
Proof.
  destruct filters_keep_page as (_ & _ & _ & _ & _ & Hany & _).
  rewrite Hany; reflexivity.
Defined.

End HomePageProps.

(** ** The term form *)

Module TermFormFacts.
Import JS JSFacts TermForm.

Lemma toUpperCase_unit (c : N) : toUpperCase [c] = upper_unit c.
Proof. unfold toUpperCase. simpl. apply app_nil_r. Qed.

Lemma toUpperCase_app (a b : JsString) :
  toUpperCase (a ++ b) = toUpperCase a ++ toUpperCase b.
Proof. unfold toUpperCase. apply bind_app. Qed.

(** [capitalizeWord] upcases the first character and downcases the rest. *)
Lemma capitalizeWord_spec (word : JsString) :
  capitalizeWord word = upcase_first_downcase_rest word.
Proof.
  unfold capitalizeWord. change 1%Z with (Z.of_nat 1). rewrite slice_from.
  by destruct word.
Qed.

Lemma capitalizeWord_cons (c : N) (rest : JsString) :
  capitalizeWord (c :: rest) = upper_unit c ++ toLowerCase rest.
Proof.
  rewrite capitalizeWord_spec. unfold upcase_first_downcase_rest.
  by rewrite toUpperCase_unit.
Qed.

End TermFormFacts.

(** ** Reasoning about computations on the form *)

Module TripleRules.
Import JS TermForm.

Section Rules.
Context {A B : Type}.
Implicit Types (P : Form → Prop) (E : Exn → Form → Prop).

Lemma triple_ret P (a : A) (Q : A → Form → Prop) E :
  (∀ s, P s → Q a s) → triple P (mret a) Q E.
Proof. intros H s Hs. by apply H. Qed.

Lemma triple_bind P (m : M A) (f : A → M B) (R : A → Form → Prop)
    (Q : B → Form → Prop) E :
  triple P m R E → (∀ a, triple (R a) (f a) Q E) → triple P (m ≫= f) Q E.
Proof.
  intros Hm Hf s Hs. specialize (Hm s Hs).
  unfold mbind, M_bind. destruct (m s) as [[a|e] s']; [|done].
  by apply Hf.
Qed.

Lemma triple_throw P (e : Exn) (Q : A → Form → Prop) E :
  (∀ s, P s → E e s) → triple P (throw e) Q E.
Proof. intros H s Hs. by apply H. Qed.

Lemma triple_lift P (c : Completion A) (Q : A → Form → Prop) E :
  (∀ s, P s → match c with Normal a => Q a s | Thrown e => E e s end) →
  triple P (lift c) Q E.
Proof. intros H s Hs. specialize (H s Hs). unfold lift. by destruct c. Qed.

Lemma triple_await P (r : Fetched A) (Q : A → Form → Prop) E :
  (∀ s, P s → match r with
              | Resolved a => Q a s
              | Rejected reason => E (Rejection reason) s
              end) →
  triple P (await r) Q E.
Proof. intros H s Hs. specialize (H s Hs). by destruct r. Qed.

Lemma triple_consequence P P' (m : M A) (Q Q' : A → Form → Prop) E E' :
  triple P' m Q' E' → (∀ s, P s → P' s) →
  (∀ a s, Q' a s → Q a s) → (∀ e s, E' e s → E e s) → triple P m Q E.
Proof.
  intros Hm HP HQ HE s Hs. specialize (Hm s (HP s Hs)).
  destruct (m s) as [[a|e] s']; auto.
Qed.

End Rules.

Lemma triple_modify P (f : Form → Form) (Q : () → Form → Prop) E :
  (∀ s, P s → Q () (f s)) → triple P (modify f) Q E.
Proof. intros H s Hs. by apply H. Qed.

Lemma triple_try_catch P (body : M ()) (handler : Exn → M ())
    (R : Exn → Form → Prop) (Q : () → Form → Prop) E :
  triple P body Q R → (∀ e, triple (R e) (handler e) Q E) →
  triple P (try_catch body handler) Q E.
Proof.
  intros Hb Hh s Hs. specialize (Hb s Hs). unfold try_catch.
  destruct (body s) as [[[]|e] s']; [done|]. by apply Hh.
Qed.

(** Reading a property changes no state. *)
Lemma triple_get_prop P key ofString v (Q : JsValue → Form → Prop) E :
  (∀ s, P s → ∀ x, Q x s) → (∀ s, P s → E TypeError s) →
  triple P (get_prop key ofString v) Q E.
Proof. intros HQ HE s Hs. destruct v; simpl; auto. Qed.

End TripleRules.

Module TermFormLoad.
Import JS JSFacts TermForm TripleRules.

Section Preserves.
Context (I : Form → Prop).

Lemma preserves_ret {A} (a : A) : preserves I (mret a).
Proof. by apply triple_ret. Qed.

Lemma preserves_bind {A B} (m : M A) (f : A → M B) :
  preserves I m → (∀ a, preserves I (f a)) → preserves I (m ≫= f).
Proof. intros Hm Hf. by apply triple_bind with (R := λ _, I). Qed.

Lemma preserves_modify (f : Form → Form) :
  (∀ s, I s → I (f s)) → preserves I (modify f).
Proof. intros H s Hs. by apply H. Qed.

Lemma preserves_throw {A} (e : Exn) : preserves I (throw (A := A) e).
Proof. by apply triple_throw. Qed.

Lemma preserves_lift {A} (c : Completion A) : preserves I (lift c).
Proof. apply triple_lift. by destruct c. Qed.

Lemma preserves_await {A} (r : Fetched A) : preserves I (await r).
Proof. apply triple_await. by destruct r. Qed.

Lemma preserves_get_prop key ofString v : preserves I (get_prop key ofString v).
Proof. by apply triple_get_prop. Qed.

Lemma preserves_try_catch (body : M ()) (handler : Exn → M ()) :
  preserves I body → (∀ e, preserves I (handler e)) →
  preserves I (try_catch body handler).
Proof. intros Hb Hh. by apply triple_try_catch with (R := λ _, I). Qed.

End Preserves.

(** Walk through a computation, leaving the state writes to be checked. *)
Ltac preserve_step :=
  lazymatch goal with
  | |- preserves _ (mbind _ _) => apply preserves_bind; [|intros ?]
  | |- preserves _ (mret _) => apply preserves_ret
  | |- preserves _ (throw _) => apply preserves_throw
  | |- preserves _ (lift _) => apply preserves_lift
  | |- preserves _ (await _) => apply preserves_await
  | |- preserves _ (get_length _) => apply preserves_get_prop
  | |- preserves _ (get_index0 _) => apply preserves_get_prop
  | |- preserves _ (get_name _) => apply preserves_get_prop
  | |- preserves _ (modify _) => apply preserves_modify; intros ? ?
  | |- preserves _ (match ?x with _ => _ end) => destruct x
  end.
Ltac preserve := repeat preserve_step.

(** [fetchData] writes the dropdown lists, the three selections, the error
    message and the console: the free texts survive it. *)

Lemma fetchData_text gt_zero p cf tf lf a b c :
  preserves (text_is a b c) (fetchData gt_zero p cf tf lf).
Proof.
  apply preserves_try_catch; [unfold fetchBody | intros e; unfold fetchCatch];
    preserve; done.
Qed.

Lemma defaultSelection_text p a b c s :
  text_is a b c s → text_is a b c (defaultSelection p s).
Proof. unfold defaultSelection. by repeat case_match. Qed.

Lemma load_text gt_zero p cf tf lf a b c s :
  text_is a b c s → text_is a b c (load gt_zero p cf tf lf s).2.
Proof.
  intros Hs. unfold load.
  pose proof (fetchData_text gt_zero p cf tf lf a b c s Hs) as H.
  destruct (fetchData gt_zero p cf tf lf s) as [[[]|e] s']; simpl;
    destruct (optionsReplaced cf tf lf); auto using defaultSelection_text.
Qed.

(** A defective languages response: the language list ends up empty, and
    the [try] block writes neither the error message nor the console. *)

Lemma preserves_triple {A} (I : Form → Prop) (m : M A) :
  preserves I m → triple I m (λ _, I) (λ _, I).
Proof. done. Qed.

Lemma triple_await_resolved {A B} P (a : A) (f : A → M B) Q E :
  triple P (f a) Q E → triple P (await (Resolved a) ≫= f) Q E.
Proof. intros H s Hs. by apply H. Qed.

Lemma triple_seq_modify {B} P R (g : Form → Form) (k : () → M B) Q E :
  (∀ s, P s → R (g s)) → triple R (k ()) Q E → triple P (modify g ≫= k) Q E.
Proof. intros Hg Hk s Hs. by apply Hk, Hg. Qed.

Lemma fetchBody_defective gt_zero p cs ts v e0 c0 :
  triple (quiet e0 c0)
    (fetchBody gt_zero p (Resolved cs) (Resolved ts) (Resolved (LangNonArray v)))
    (λ _, no_languages e0 c0) (λ _, no_languages e0 c0).
Proof.
  unfold fetchBody. do 3 apply triple_await_resolved.
  apply triple_seq_modify with (R := quiet e0 c0); [done|].
  apply triple_seq_modify with (R := quiet e0 c0); [done|].
  apply triple_seq_modify with (R := no_languages e0 c0); [done|].
  apply preserves_triple.
  preserve; done.
Qed.

(** [===] against a string holds of that string only. *)
Lemma strict_eq_str_true (v : JsValue) (s : JsString) :
  strict_eq_str v s = true ↔ v = JStr s.
Proof.
  destruct v; simpl; try (split; [discriminate | intros [=]]).
  rewrite str_eq_true. split; [by intros -> | by intros [= ->]].
Qed.

(** The default-selection effect writes the three selections only. *)
Lemma defaultSelection_languageOptions p s :
  languageOptions (defaultSelection p s) = languageOptions s.
Proof. unfold defaultSelection. by repeat case_match. Qed.

Lemma falsy_supplied (v : option JsString) : falsy v = false ↔ supplied v.
Proof.
  unfold supplied. destruct v as [[|c s]|]; simpl; split; try done.
  - intros (s & [= <-] & Hs). done.
  - intros _. by exists (c :: s).
  - intros (s & [=] & _).
Qed.

Lemma defaulted_spec (v : option JsString) (first : JsString) :
  (¬ supplied v → defaulted v first = first) ∧
  (∀ s, v = Some s → s ≠ [] → defaulted v first = s).
Proof.
  unfold supplied, defaulted. split.
  - intros Hv. destruct v as [s|]; [|done]. case_decide; [done|].
    destruct Hv. by exists s.
  - intros s -> Hs. by case_decide.
Qed.

(** The same walk, remembering the outcome of each test. *)
Ltac preserve_eq_step :=
  lazymatch goal with
  | |- preserves _ (match ?x with _ => _ end) => destruct x eqn:?
  | _ => preserve_step
  end.
Ltac preserve_eq := repeat preserve_eq_step.

(** [fetchData] catches whatever its body throws. *)
Lemma fetchData_total gt_zero p cf tf lf s :
  (fetchData gt_zero p cf tf lf s).1 = Normal ().
Proof.
  unfold fetchData, try_catch.
  by destruct (fetchBody gt_zero p cf tf lf s) as [[[]|e] s'].
Qed.

(** When the three awaits resolve, lines 53-55 store the lists and nothing
    after them, the [catch] block included, writes them again. *)
Lemma fetchData_options gt_zero p cs ts ld s :
  options_stored cs ts ld
    (fetchData gt_zero p (Resolved cs) (Resolved ts) (Resolved ld) s).2.
Proof.
  assert (triple (λ _, True)
            (fetchData gt_zero p (Resolved cs) (Resolved ts) (Resolved ld))
            (λ _, options_stored cs ts ld) (λ _, options_stored cs ts ld)) as H.
  { apply triple_try_catch with (R := λ _, options_stored cs ts ld).
    - unfold fetchBody. do 3 apply triple_await_resolved.
      apply triple_seq_modify
        with (R := λ s, categories s = cs ++ [otherOption]); [done|].
      apply triple_seq_modify
        with (R := λ s, categories s = cs ++ [otherOption] ∧
                        themeOptions s = ts ++ [otherOption]); [done|].
      apply triple_seq_modify with (R := options_stored cs ts ld).
      { intros s' [Hc Ht]. by split_and!. }
      apply preserves_triple. preserve; done.
    - intros e. apply preserves_triple. unfold fetchCatch. preserve; done. }
  specialize (H s Logic.I).
  by destruct (fetchData _ _ _ _ _ s) as [[[]|e] s'].
Qed.

(** A selection with a supplied initial value is not written by
    [fetchData]. *)
Lemma fetchData_keeps_category gt_zero p cf tf lf x :
  falsy (initial init_grammaticalCategory p) = false →
  preserves (λ s, grammaticalCategory s = x) (fetchData gt_zero p cf tf lf).
Proof.
  intros Hf.
  apply preserves_try_catch; [unfold fetchBody | intros e; unfold fetchCatch];
    preserve_eq; first [done | congruence].
Qed.

Lemma fetchData_keeps_theme gt_zero p cf tf lf x :
  falsy (initial init_theme p) = false →
  preserves (λ s, theme s = x) (fetchData gt_zero p cf tf lf).
Proof.
  intros Hf.
  apply preserves_try_catch; [unfold fetchBody | intros e; unfold fetchCatch];
    preserve_eq; first [done | congruence].
Qed.

Lemma fetchData_keeps_language gt_zero p cf tf lf x :
  falsy (initial init_language p) = false →
  preserves (λ s, language s = x) (fetchData gt_zero p cf tf lf).
Proof.
  intros Hf.
  apply preserves_try_catch; [unfold fetchBody | intros e; unfold fetchCatch];
    preserve_eq; try done; try congruence.
  match goal with
  | H : _ && falsy _ = true |- _ => rewrite Hf, andb_false_r in H; discriminate H
  end.
Qed.

Lemma defaultSelection_fields p s :
  let s' := defaultSelection p s in
  grammaticalCategory s' =
    match categories s with
    | c :: _ =>
        if falsy (initial init_grammaticalCategory p) then opt_name c
        else grammaticalCategory s
    | [] => grammaticalCategory s
    end ∧
  theme s' =
    match themeOptions s with
    | t :: _ => if falsy (initial init_theme p) then opt_name t else theme s
    | [] => theme s
    end ∧
  language s' =
    match languageOptions s with
    | l :: _ =>
        if falsy (initial init_language p) then JStr (lang_name l)
        else language s
    | [] => language s
    end.
Proof. unfold defaultSelection. by repeat case_match. Qed.

Lemma defaulted_falsy (v : option JsString) (first : JsString) :
  defaulted v first = if falsy v then first else or_empty v.
Proof. by destruct v as [[|c s]|]. Qed.

Lemma mount_initial p : mount p = initialForm p.
Proof. reflexivity. Qed.

(** A user event keeps [no_stale_text]: a dropdown that leaves "Other"
    clears its free text, and a free-text input only exists under
    "Other". *)
Lemma step_no_stale_text s e s' :
  step s e = Some s' → no_stale_text s → no_stale_text s'.
Proof.
  unfold step. destruct (rendered e s) eqn:Hr; [|done].
  intros [= <-] (Hc & Ht & Hl).
  destruct e as [v|v|v|v|v|v|v|v|v]; simpl in Hr; try by split_and!.
  - unfold handle, handleCategoryChange.
    destruct (str_eq v Other) eqn:Hv; simpl; split_and!; try done.
    intros Hne. by apply str_eq_true in Hv.
  - unfold handle, handleThemeChange.
    destruct (str_eq v Other) eqn:Hv; simpl; split_and!; try done.
    intros Hne. by apply str_eq_true in Hv.
  - unfold handle, handleLanguageChange.
    destruct (str_eq v Other) eqn:Hv; simpl; split_and!; try done.
    intros Hne. apply str_eq_true in Hv. by subst v.
  - apply str_eq_true in Hr. split_and!; first [done | by intros []].
  - apply str_eq_true in Hr. split_and!; first [done | by intros []].
  - apply strict_eq_str_true in Hr. split_and!; first [done | by intros []].
Qed.

End TermFormLoad.

Module TermFormProps.
Import JS JSFacts TermForm TermFormFacts TripleRules TermFormLoad.

(** C5. On a change event the term, translation, new-category, new-theme
    and new-language inputs store the entered text with its first
    character upcased and the remainder downcased, which is what
    capitalizeWord computes; the definition field stores the entered text
    unchanged. *)
Theorem change_capitalises (value : JsString) (s : Form) :
  capitalizeWord value = upcase_first_downcase_rest value ∧
  term (handle (TermInput value) s) = upcase_first_downcase_rest value ∧
  translation (handle (TranslationInput value) s)
    = upcase_first_downcase_rest value ∧
  newCategory (handle (NewCategoryInput value) s)
    = upcase_first_downcase_rest value ∧
  newTheme (handle (NewThemeInput value) s)
    = upcase_first_downcase_rest value ∧
  newLanguage (handle (NewLanguageInput value) s)
    = upcase_first_downcase_rest value ∧
  definition (handle (DefinitionInput value) s) = value.
Proof. split_and!; try apply capitalizeWord_spec; reflexivity. Qed.

(** Typing "verb", "VERB" or "vERB" stores "Verb"; the definition keeps
    its capitals. *)
Example capitalise_verb :
  capitalizeWord (js "verb") = js "Verb" ∧
  capitalizeWord (js "VERB") = js "Verb" ∧
  capitalizeWord (js "vERB") = js "Verb" ∧
  definition (onChangeDefinition (js "a Small CAT") (initialForm Samples.createProps))
    = js "a Small CAT".
Proof. by split_and!. Qed.

(** The one-character string U+00DF (sharp s): capitalizeWord turns it
    into "SS", and capitalizeWord of "SS" is "Ss". *)
Example capitalizeWord_sharp_s :
  capitalizeWord [0xDF] = js "SS" ∧
  capitalizeWord (capitalizeWord [0xDF]) = js "Ss".
Proof. by split_and!. Qed.

(** C10, as stated, fails: on the string U+00DF a second capitalizeWord
    changes what the first one produced. *)
Lemma capitalizeWord_not_idempotent :
  capitalizeWord (capitalizeWord [0xDF]) ≠ capitalizeWord [0xDF].
Proof. discriminate. Qed.

(** C10, amended. capitalizeWord is idempotent on every Latin-1 string
    (all code units at most U+00FF) whose first character has an
    upper-case form of at most one character: for such w,
    capitalizeWord(capitalizeWord(w)) = capitalizeWord(w). *)
Theorem capitalizeWord_idempotent (w : JsString) :
  Notions.latin1 w →
  (length (toUpperCase (charAt w 0)) ≤ 1)%nat →
  capitalizeWord (capitalizeWord w) = capitalizeWord w.
Proof.
  intros _. destruct w as [|c rest]; [done|].
  change (charAt (c :: rest) 0) with [c]. rewrite toUpperCase_unit.
  intros Hlen. rewrite capitalizeWord_cons.
  pose proof (upper_unit_length c) as Hpos.
  destruct (upper_unit c) as [|u [|? ?]] eqn:Hu; simpl in Hlen, Hpos; try lia.
  simpl. rewrite capitalizeWord_cons, toLowerCase_idem.
  by rewrite (upper_unit_single c u).
Qed.

Lemma capitalizeWord_idempotent_witness :
  capitalizeWord (capitalizeWord (js "verb")) = capitalizeWord (js "verb").
Proof.
  apply (capitalizeWord_idempotent (js "verb")).
  - unfold Notions.latin1. simpl.
    repeat (apply Forall_cons; split; [discriminate|]). constructor.
  - simpl. lia.
Defined.

(** C3. For every form state the payload of handleSubmit takes each
    taxonomy field from the free text when the dropdown shows "Other" and
    from the dropdown otherwise, and the request carries that payload.
    Choosing "Other" for the category and entering "verb" as the new
    category gives a payload whose category is "Verb". *)
Theorem payload_resolves_other (p : Props) (response : Fetched ()) (s : Form) :
  (grammaticalCategory s = Other →
     td_grammaticalCategory (termData s) = newCategory s) ∧
  (grammaticalCategory s ≠ Other →
     td_grammaticalCategory (termData s) = grammaticalCategory s) ∧
  (theme s = Other → td_theme (termData s) = newTheme s) ∧
  (theme s ≠ Other → td_theme (termData s) = theme s) ∧
  (language s = JStr Other → td_language (termData s) = JStr (newLanguage s)) ∧
  (language s ≠ JStr Other → td_language (termData s) = language s) ∧
  ((handleSubmit p response s).1 = AddTerm (termData s) ∨
   ∃ id, (handleSubmit p response s).1 = UpdateTerm id (termData s)) ∧
  (∃ s', run s [CategorySelect Other; NewCategoryInput (js "verb")] = Some s' ∧
         td_grammaticalCategory (termData s') = js "Verb" ∧
         (handleSubmit Samples.createProps response s').1 = AddTerm (termData s')).
Proof.
  split_and!.
  - intros H. simpl. by rewrite (proj2 (str_eq_true _ _) H).
  - intros H. simpl. by rewrite (proj2 (str_eq_false _ _) H).
  - intros H. simpl. by rewrite (proj2 (str_eq_true _ _) H).
  - intros H. simpl. by rewrite (proj2 (str_eq_false _ _) H).
  - intros H. simpl. by rewrite (proj2 (strict_eq_str_true _ _) H).
  - intros H. simpl. destruct (strict_eq_str (language s) Other) eqn:E; [|done].
    by apply strict_eq_str_true in E.
  - unfold handleSubmit, submitRequest. simpl.
    destruct (termId p) as [id|]; [|by left].
    destruct (truthy id); [right; by exists id | by left].
  - eexists. split_and!; reflexivity.
Qed.

(** The scenario of the specification: no initial data, the one fetched
    category "Noun". The payload's category is "Noun" until "Other" is
    chosen and "verb" typed; then it is "Verb". *)
Lemma payload_resolves_other_witness :
  grammaticalCategory Samples.loaded = js "Noun" ∧
  td_grammaticalCategory (termData Samples.loaded) = js "Noun" ∧
  grammaticalCategory Samples.verbTyped = Other ∧
  td_grammaticalCategory (termData Samples.verbTyped) = js "Verb".
Proof.
  split_and!.
  - reflexivity.
  - apply (payload_resolves_other Samples.createProps (Resolved ())
             Samples.loaded).
    discriminate.
  - reflexivity.
  - apply (payload_resolves_other Samples.createProps (Resolved ())
             Samples.verbTyped).
    reflexivity.
Defined.

(** Typed key by key, the input hands back what the form last stored plus
    the new letter; the stored text is "Verb" all the same. *)
Example verb_key_by_key :
  (λ s, newCategory s) <$>
    run Samples.otherChosen
      [NewCategoryInput (js "v"); NewCategoryInput (js "Ve");
       NewCategoryInput (js "Ver"); NewCategoryInput (js "Verb")]
  = Some (js "Verb").
Proof. reflexivity. Qed.

(** C6. Once the three fetches have resolved and the effects have run, a
    dropdown whose collection has a first item shows that item's name if
    no initial value was supplied for the field, and the initial value if
    one was. This holds for each dropdown whatever the other two services
    resolved to. A form opened with the language "English" keeps
    "English" although "French" is the first fetched language. *)
Theorem default_selection (gt_zero : JsValue → Completion bool) (p : Props) :
  (∀ c0 cs ts ld,
     grammaticalCategory
       (load gt_zero p (Resolved (c0 :: cs)) (Resolved ts) (Resolved ld)
          (mount p)).2
     = defaulted (initial init_grammaticalCategory p) (opt_name c0)) ∧
  (∀ cs t0 ts ld,
     theme
       (load gt_zero p (Resolved cs) (Resolved (t0 :: ts)) (Resolved ld)
          (mount p)).2
     = defaulted (initial init_theme p) (opt_name t0)) ∧
  (∀ cs ts l0 ls,
     language
       (load gt_zero p (Resolved cs) (Resolved ts)
          (Resolved (LangArray (l0 :: ls))) (mount p)).2
     = JStr (defaulted (initial init_language p) (lang_name l0))) ∧
  language
    (load gt_zero Samples.editProps (Resolved [Samples.noun]) (Resolved [])
       (Resolved (LangArray [Samples.frenchOption; Samples.englishOption]))
       (mount Samples.editProps)).2
  = JStr (js "English").
Proof.
  assert (∀ cs ts ld,
    let s1 := (fetchData gt_zero p (Resolved cs) (Resolved ts) (Resolved ld)
                 (mount p)).2 in
    (load gt_zero p (Resolved cs) (Resolved ts) (Resolved ld) (mount p)).2
      = defaultSelection p s1 ∧
    options_stored cs ts ld s1 ∧
    (falsy (initial init_grammaticalCategory p) = false →
       grammaticalCategory s1 = or_empty (initial init_grammaticalCategory p)) ∧
    (falsy (initial init_theme p) = false →
       theme s1 = or_empty (initial init_theme p)) ∧
    (falsy (initial init_language p) = false →
       language s1 = JStr (or_empty (initial init_language p)))) as Hload.
  { intros cs ts ld s1. subst s1. unfold load.
    pose proof (fetchData_options gt_zero p cs ts ld (mount p)) as Ho.
    pose proof (λ x H, fetchData_keeps_category gt_zero p (Resolved cs)
                  (Resolved ts) (Resolved ld) x H (mount p)) as Hkc.
    pose proof (λ x H, fetchData_keeps_theme gt_zero p (Resolved cs)
                  (Resolved ts) (Resolved ld) x H (mount p)) as Hkt.
    pose proof (λ x H, fetchData_keeps_language gt_zero p (Resolved cs)
                  (Resolved ts) (Resolved ld) x H (mount p)) as Hkl.
    destruct (fetchData _ _ _ _ _ (mount p)) as [c s1]. simpl in *.
    split_and!; [done | done | intros Hf | intros Hf | intros Hf].
    - specialize (Hkc _ Hf eq_refl). by destruct c.
    - specialize (Hkt _ Hf eq_refl). by destruct c.
    - specialize (Hkl _ Hf eq_refl). by destruct c. }
  split_and!.
  - intros c0 cs ts ld.
    destruct (Hload (c0 :: cs) ts ld) as (-> & (Hc & _ & _) & Hk & _ & _).
    rewrite (proj1 (defaultSelection_fields p _)), Hc, defaulted_falsy. simpl.
    destruct (falsy (initial init_grammaticalCategory p)); [done | by apply Hk].
  - intros cs t0 ts ld.
    destruct (Hload cs (t0 :: ts) ld) as (-> & (_ & Ht & _) & _ & Hk & _).
    rewrite (proj1 (proj2 (defaultSelection_fields p _))), Ht, defaulted_falsy.
    simpl. destruct (falsy (initial init_theme p)); [done | by apply Hk].
  - intros cs ts l0 ls.
    destruct (Hload cs ts (LangArray (l0 :: ls)))
      as (-> & (_ & _ & Hl) & _ & _ & Hk).
    rewrite (proj2 (proj2 (defaultSelection_fields p _))), Hl, defaulted_falsy.
    simpl. destruct (falsy (initial init_language p)); [done | by apply Hk].
  - reflexivity.
Qed.

(** With an empty fetched collection and no initial value the dropdown
    shows its only entry, the synthetic "Other". *)
Example empty_collection_selects_other :
  grammaticalCategory
    (load Samples.never_positive Samples.createProps
       (Resolved []) (Resolved []) (Resolved (LangArray []))
       (mount Samples.createProps)).2
  = Other.
Proof. reflexivity. Qed.

(** C7. When the languages service resolves to a value that is not an
    array, fetchData returns normally: no exception leaves it. The
    language dropdown is left with no options, also after the effects
    have run. If the try block runs to its end, nothing is logged and no
    error is set; if it throws, the catch block logs 'Error loading data'
    once and sets it as the error message. For [null] and [undefined]
    the try block always throws, at the read of [length], so the message
    is always logged and set. *)
Theorem defective_languages_handled (gt_zero : JsValue → Completion bool)
    (p : Props) (cs ts : list NamedOption) (v : JsValue) (s : Form) :
  let attempt := λ x, fetchBody gt_zero p (Resolved cs) (Resolved ts)
                        (Resolved (LangNonArray x)) s in
  let outcome := λ x, fetchData gt_zero p (Resolved cs) (Resolved ts)
                        (Resolved (LangNonArray x)) s in
  let r := outcome v in
  let r' := load gt_zero p (Resolved cs) (Resolved ts)
              (Resolved (LangNonArray v)) s in
  r.1 = Normal () ∧ r'.1 = Normal () ∧
  languageOptions r.2 = [] ∧ languageOptions r'.2 = [] ∧
  match (attempt v).1 with
  | Normal _ => error r.2 = error s ∧ console r.2 = console s
  | Thrown _ =>
      error r.2 = Some loadErrorMessage ∧
      console r.2 = console s ++ [loadErrorMessage]
  end ∧
  ((attempt JNull).1 = Thrown TypeError ∧
   error (outcome JNull).2 = Some loadErrorMessage ∧
   console (outcome JNull).2 = console s ++ [loadErrorMessage]) ∧
  ((attempt JUndefined).1 = Thrown TypeError ∧
   error (outcome JUndefined).2 = Some loadErrorMessage ∧
   console (outcome JUndefined).2 = console s ++ [loadErrorMessage]).
Proof.
  intros attempt outcome r r'.
  assert (∀ x,
    (outcome x).1 = Normal () ∧ languageOptions (outcome x).2 = [] ∧
    match (attempt x).1 with
    | Normal _ =>
        error (outcome x).2 = error s ∧ console (outcome x).2 = console s
    | Thrown _ =>
        error (outcome x).2 = Some loadErrorMessage ∧
        console (outcome x).2 = console s ++ [loadErrorMessage]
    end) as Hpath.
  { intros x. subst attempt outcome. cbn beta.
    pose proof (fetchBody_defective gt_zero p cs ts x (error s) (console s) s
                  (conj eq_refl eq_refl)) as Hbody.
    unfold fetchData, try_catch.
    destruct (fetchBody _ _ _ _ _ s) as [[[]|e] s1];
      destruct Hbody as (Hl & He & Hc); cbn [fst snd]; [done|].
    split_and!; [done | done | done |]. simpl. by rewrite Hc. }
  assert (∀ x, x = JNull ∨ x = JUndefined → (attempt x).1 = Thrown TypeError)
    as Hnullish.
  { intros x Hx. subst attempt. cbn beta. unfold fetchBody.
    destruct Hx as [-> | ->];
      destruct cs, ts, (falsy (initial init_grammaticalCategory p)),
        (falsy (initial init_theme p)); reflexivity. }
  assert (r' = (r.1, defaultSelection p r.2)) as ->.
  { subst r r' outcome. unfold load. cbn beta.
    by destruct (fetchData _ _ _ _ _ s). }
  cbn [fst snd]. rewrite defaultSelection_languageOptions.
  destruct (Hpath v) as (Hn & Hl & Hv).
  pose proof (Hpath JNull) as (_ & _ & Hnull).
  pose proof (Hpath JUndefined) as (_ & _ & Hundef).
  rewrite (Hnullish JNull) in Hnull |- * by by left.
  rewrite (Hnullish JUndefined) in Hundef |- * by by right.
  destruct Hnull, Hundef. by split_and!.
Qed.

(** Both outcomes occur: [null] makes the read of [length] throw, which
    the catch block handles; an error object has no [length] and the load
    runs to its end. *)
Example defective_null :
  let r := fetchData Samples.never_positive Samples.createProps
             (Resolved [Samples.noun]) (Resolved [])
             (Resolved (LangNonArray JNull)) (mount Samples.createProps) in
  r.1 = Normal () ∧ languageOptions r.2 = [] ∧
  error r.2 = Some loadErrorMessage ∧ console r.2 = [loadErrorMessage].
Proof. by split_and!. Qed.

Example defective_error_object :
  let r := fetchData Samples.never_positive Samples.createProps
             (Resolved [Samples.noun]) (Resolved [])
             (Resolved (LangNonArray
                (JObj {[ "message" := JStr (js "Network Error") ]})))
             (mount Samples.createProps) in
  r.1 = Normal () ∧ languageOptions r.2 = [] ∧
  error r.2 = None ∧ console r.2 = [].
Proof. by split_and!. Qed.

(** C9. In every state the form reaches from its initial state by
    dropdown changes and text input, before or after its data has
    arrived, a dropdown that does not show "Other" has an empty free
    text. So when "Other" is chosen again the payload starts from the
    empty text, not from text typed under an earlier "Other". *)
Theorem free_text_cleared (gt_zero : JsValue → Completion bool) (p : Props)
    (s : Form) :
  reachable gt_zero p s →
  no_stale_text s ∧
  (grammaticalCategory s ≠ Other →
     td_grammaticalCategory (termData (handleCategoryChange Other s)) = []) ∧
  (theme s ≠ Other → td_theme (termData (handleThemeChange Other s)) = []) ∧
  (language s ≠ JStr Other →
     td_language (termData (handleLanguageChange Other s)) = JStr []).
Proof.
  intros Hs.
  assert (no_stale_text s) as Hinv.
  { induction Hs as [|cf tf lf|s e s' _ IH Hstep].
    - by split_and!.
    - assert (text_is [] [] [] (load gt_zero p cf tf lf (mount p)).2)
        as (Hc & Ht & Hl); [by apply load_text|].
      by split_and!.
    - by eapply step_no_stale_text. }
  destruct Hinv as (Hc & Ht & Hl).
  split_and!; [done | intros H%Hc | intros H%Ht | intros H%Hl]; simpl.
  - by rewrite H.
  - by rewrite H.
  - by rewrite H.
Qed.

(** "Other" chosen, "verb" typed, "Noun" chosen again: the free text
    "Verb" is gone. *)
Lemma free_text_cleared_witness :
  newCategory Samples.verbTyped = js "Verb" ∧
  no_stale_text Samples.backToNoun ∧
  newCategory Samples.backToNoun = [].
Proof.
  assert (reachable Samples.never_positive Samples.createProps
            Samples.backToNoun) as Hs.
  { apply (reachable_step _ _ _ (CategorySelect (js "Noun")) _
             (reachable_step _ _ _ (NewCategoryInput (js "verb")) _
                (reachable_step _ _ _ (CategorySelect Other) _
                   (reachable_load _ _ _ _ _) eq_refl) eq_refl) eq_refl). }
  destruct (free_text_cleared _ _ _ Hs) as ((Hc & _) & _).
  split_and!; [reflexivity | by apply (free_text_cleared _ _ _ Hs) | ].
  apply Hc. discriminate.
Defined.

End TermFormProps.

(** ** More on the listing view *)

Module HomePageMore.
Import JS JSFacts HomePage HomePageFacts Notions.

(** The page shown once the button [i + 1] has been pressed. *)
Lemma currentTerms_paginate (s : State) (i : nat) :
  currentTerms (paginate (Z.of_nat i + 1) s)
  = take 10 (drop (10 * i) (filteredTerms s)).
Proof.
  unfold currentTerms, indexOfFirstTerm, indexOfLastTerm, termsPerPage.
  cbn [paginate setCurrentPage currentPage filteredTerms].
  replace ((Z.of_nat i + 1) * 10 - 10)%Z with (Z.of_nat (10 * i)) by lia.
  replace ((Z.of_nat i + 1) * 10)%Z with (Z.of_nat (10 * i + 10)) by lia.
  apply slice_window.
Qed.

Lemma pageNumbers_seq (n : nat) :
  pageNumbers n = (λ i : nat, (Z.of_nat i + 1)%Z) <$> seq 0 (pageCount n).
Proof. reflexivity. Qed.

(** [pageCount n] is the ceiling of [n / 10]. *)
Lemma pageCount_bounds (n : nat) :
  (n ≤ 10 * pageCount n)%nat ∧ (10 * pageCount n < n + 10)%nat.
Proof.
  unfold pageCount, termsPerPage.
  pose proof (Z.div_mod (Z.of_nat n + 10 - 1) 10 ltac:(lia)) as Hd.
  pose proof (Z.mod_pos_bound (Z.of_nat n + 10 - 1) 10 ltac:(lia)) as Hm.
  lia.
Qed.

Lemma chunks_take {A} (l : list A) (m : nat) :
  mjoin ((λ i, take 10 (drop (10 * i) l)) <$> seq 0 m) = take (10 * m) l.
Proof.
  induction m as [|m IH]; [done|].
  rewrite seq_S, fmap_app, join_app, IH. simpl. rewrite app_nil_r.
  rewrite take_take_drop. f_equal. lia.
Qed.

(** Every code unit of a literal is at most U+00FF. *)
Ltac latin1_text :=
  unfold latin1; simpl;
  repeat (apply Forall_cons; split; [discriminate|]); constructor.

(** X1. The pages behind the buttons of the Pagination component, taken
    in the order of the buttons, make up the filtered list: nothing is
    left out, repeated or reordered. *)
Theorem pages_cover (s : State) :
  mjoin ((λ k, currentTerms (paginate k s))
           <$> pageNumbers (length (filteredTerms s)))
  = filteredTerms s.
Proof.
  rewrite pageNumbers_seq, <- list_fmap_compose.
  erewrite list_fmap_ext; [|intros ? i _; apply currentTerms_paginate].
  rewrite chunks_take. apply take_ge.
  apply pageCount_bounds.
Qed.

(** X2. A button of the Pagination component never leads to an empty
    page: its page has between 1 and 10 terms, and exactly 10 when a
    button for the next page exists. *)
Theorem offered_page_nonempty (s : State) (k : Z) :
  k ∈ pageNumbers (length (filteredTerms s)) →
  (1 ≤ length (currentTerms (paginate k s)) ≤ 10)%nat ∧
  ((k + 1)%Z ∈ pageNumbers (length (filteredTerms s)) →
     length (currentTerms (paginate k s)) = 10%nat).
Proof.
  rewrite !pageNumbers_seq, !list_elem_of_fmap.
  intros (i & -> & Hi%elem_of_seq).
  rewrite currentTerms_paginate, length_take, length_drop.
  pose proof (pageCount_bounds (length (filteredTerms s))) as Hb.
  split; [lia|].
  intros (j & Hj & Hj'%elem_of_seq). lia.
Qed.

(** Eleven terms: page 1 is full, page 2 has one term. *)
Lemma offered_page_nonempty_witness :
  length (currentTerms (paginate 1 elevenLoaded)) = 10%nat ∧
  (1 ≤ length (currentTerms (paginate 2 elevenLoaded)) ≤ 10)%nat.
Proof.
  split.
  - apply (offered_page_nonempty elevenLoaded 1);
      change (pageNumbers _) with [1%Z; 2%Z]; repeat constructor.
  - apply (offered_page_nonempty elevenLoaded 2).
    change (pageNumbers _) with [1%Z; 2%Z]. repeat constructor.
Defined.

(** X3. Every term of the filtered list can be reached through a button:
    the term at index i is at position i mod 10 of page i/10 + 1, and
    the Pagination component has a button for that page. *)
Theorem term_on_its_page (s : State) (i : nat) (t : Term) :
  filteredTerms s !! i = Some t →
  (Z.of_nat (i / 10) + 1)%Z ∈ pageNumbers (length (filteredTerms s)) ∧
  currentTerms (paginate (Z.of_nat (i / 10) + 1) s) !! (i mod 10)%nat = Some t.
Proof.
  intros Hi. pose proof (lookup_lt_Some _ _ _ Hi) as Hlt.
  pose proof (pageCount_bounds (length (filteredTerms s))) as Hb.
  pose proof (Nat.div_mod_eq i 10) as Hd.
  pose proof (Nat.mod_upper_bound i 10 ltac:(lia)) as Hm.
  split.
  - rewrite pageNumbers_seq, list_elem_of_fmap. exists (i / 10)%nat.
    split; [done|]. apply elem_of_seq. lia.
  - rewrite currentTerms_paginate, lookup_take_lt, lookup_drop by lia.
    by rewrite <- Hd.
Qed.

(** The eleventh term is the first one of page 2. *)
Lemma term_on_its_page_witness :
  currentTerms (paginate 2 elevenLoaded) !! 0%nat = Some Samples.chat.
Proof.
  apply (term_on_its_page elevenLoaded 10 Samples.chat). reflexivity.
Defined.

Lemma filter_filter_and {A} (f g : A → bool) (l : list A) :
  List.filter f (List.filter g l) = List.filter (λ x, g x && f x) l.
Proof.
  induction l as [|x l IH]; simpl; [done|].
  destruct (g x); simpl; [destruct (f x)|]; by rewrite IH.
Qed.

Lemma filter_narrower_sublist {A} (f g : A → bool) (l : list A) :
  (∀ x, f x = true → g x = true) → sublist (List.filter f l) (List.filter g l).
Proof.
  intros Hfg. induction l as [|x l IH]; simpl; [constructor|].
  destruct (f x) eqn:Hf.
  - rewrite (Hfg x Hf). by constructor.
  - destruct (g x); [by constructor | done].
Qed.

Lemma filter_is_sublist {A} (f : A → bool) (l : list A) :
  sublist (List.filter f l) l.
Proof.
  induction l as [|x l IH]; simpl; [constructor|].
  destruct (f x); by constructor.
Qed.

(** The test of the filter is the conjunction of its four conditions,
    each taken with the other three inputs empty. *)
Lemma matches_split selCategory selTheme selLanguage search t :
  matches selCategory selTheme selLanguage search t
  = matches [] [] [] search t && matches [] [] selLanguage [] t
    && matches [] selTheme [] [] t && matches selCategory [] [] [] t.
Proof.
  unfold matches. cbn [truthy]. rewrite !search_empty. simpl.
  rewrite !andb_true_r.
  destruct (if truthy selCategory then _ else _),
    (if truthy selTheme then _ else _),
    (if truthy selLanguage then _ else _),
    (includes _ _ || includes _ _); reflexivity.
Qed.

(** X4. The combined filter is the four single filters applied one after
    the other, in either order: filtering by search text, then language,
    then theme, then category gives the same list as the reverse order
    and as the combined filter. *)
Theorem filter_decomposes selCategory selTheme selLanguage search ts :
  filterTerms selCategory selTheme selLanguage search ts
  = filterTerms selCategory [] [] []
      (filterTerms [] selTheme [] []
         (filterTerms [] [] selLanguage []
            (filterTerms [] [] [] search ts))) ∧
  filterTerms selCategory selTheme selLanguage search ts
  = filterTerms [] [] [] search
      (filterTerms [] [] selLanguage []
         (filterTerms [] selTheme [] []
            (filterTerms selCategory [] [] [] ts))).
Proof.
  unfold filterTerms. rewrite !filter_filter_and. split.
  - apply List.filter_ext. intros t. rewrite (matches_split selCategory).
    by rewrite !andb_assoc.
  - apply List.filter_ext. intros t. rewrite (matches_split selCategory).
    destruct (matches [] [] [] search t), (matches [] [] selLanguage [] t),
      (matches [] selTheme [] [] t), (matches selCategory [] [] [] t);
      reflexivity.
Qed.

Lemma toLowerCase_app (a b : JsString) :
  toLowerCase (a ++ b) = toLowerCase a ++ toLowerCase b.
Proof. apply fmap_app. Qed.

Lemma includes_within (text q1 q2 a b : JsString) :
  q2 = a ++ q1 ++ b →
  includes (toLowerCase text) (toLowerCase q2) = true →
  includes (toLowerCase text) (toLowerCase q1) = true.
Proof.
  intros ->. rewrite !includes_spec, !toLowerCase_app.
  intros (pre & post & ->).
  exists (pre ++ toLowerCase a), (toLowerCase b ++ post).
  by rewrite <- !app_assoc.
Qed.

(** X5. Extending the search text never adds a result: when the old text
    occurs inside the new one, and the new one is Latin-1 text, the terms
    found with the new text are a sub-list of those found with the old
    one. *)
Theorem longer_search_narrows selCategory selTheme selLanguage q1 q2 a b ts :
  latin1 q2 → q2 = a ++ q1 ++ b →
  sublist (filterTerms selCategory selTheme selLanguage q2 ts)
          (filterTerms selCategory selTheme selLanguage q1 ts).
Proof.
  intros _ Hq. apply filter_narrower_sublist. intros t. unfold matches.
  rewrite !andb_true_iff, !orb_true_iff.
  intros (Hd & [H|H]); (split; [done|]);
    [left | right]; by eapply includes_within.
Qed.

(** Typing the "t" of "chat" after "cha". *)
Lemma longer_search_narrows_witness :
  sublist
    (filterTerms [] [] [] (js "chat") [Samples.chat; Samples.rapide])
    (filterTerms [] [] [] (js "cha") [Samples.chat; Samples.rapide]).
Proof.
  apply (longer_search_narrows [] [] [] (js "cha") (js "chat") [] (js "t"));
    [latin1_text | reflexivity].
Defined.

(** X6. Making a selection or entering search text never adds a result:
    the filtered list is a sub-list of the list obtained with that one
    input empty, and of the source terms. *)
Theorem selection_narrows selCategory selTheme selLanguage search ts :
  sublist (filterTerms selCategory selTheme selLanguage search ts)
          (filterTerms [] selTheme selLanguage search ts) ∧
  sublist (filterTerms selCategory selTheme selLanguage search ts)
          (filterTerms selCategory [] selLanguage search ts) ∧
  sublist (filterTerms selCategory selTheme selLanguage search ts)
          (filterTerms selCategory selTheme [] search ts) ∧
  sublist (filterTerms selCategory selTheme selLanguage search ts)
          (filterTerms selCategory selTheme selLanguage [] ts) ∧
  sublist (filterTerms selCategory selTheme selLanguage search ts) ts.
Proof.
  split_and!; try apply filter_is_sublist;
    apply filter_narrower_sublist; intros t; unfold matches; cbn [truthy];
    rewrite ?search_empty, !andb_true_iff; tauto.
Qed.

Lemma Forall_filter_true {A} (f : A → bool) (l : list A) :
  Forall (λ x, f x = true) (List.filter f l).
Proof.
  induction l as [|x l IH]; simpl; [constructor|].
  destruct (f x) eqn:Hf; [by constructor | done].
Qed.

Lemma step_options s e :
  let s' := step s e in
  categories s' = categories (handle e s) ∧
  themes s' = themes (handle e s) ∧
  languages s' = languages (handle e s).
Proof. unfold step. by destruct (depsChanged e s (handle e s)). Qed.

Lemma step_offers_approved_only s e :
  offers_approved_only s → offers_approved_only (step s e).
Proof.
  intros (Hc & Ht & Hl). unfold offers_approved_only.
  destruct (step_options s e) as (-> & -> & ->).
  destruct e as [[data|]| | | | | | | | |]; simpl; split_and!;
    first [done | apply Forall_filter_true].
Qed.

(** X7. Whatever the taxonomy services return and in whatever order the
    fetches settle, the filter buttons only ever offer approved entries;
    a fetched collection is stored as exactly its approved entries, in
    their order. *)
Theorem only_approved_offered (es : list Event) :
  offers_approved_only (run mount es) ∧
  (∀ d, Selects (λ c, category_isApproved c = true) d
          (categories (step (run mount es) (CategoriesLoaded d)))) ∧
  (∀ d, Selects (λ t, theme_isApproved t = true) d
          (themes (step (run mount es) (ThemesLoaded d)))) ∧
  (∀ d, Selects (λ l, language_isApproved l = true) d
          (languages (step (run mount es) (LanguagesLoaded d)))).
Proof.
  split_and!.
  - assert (∀ s, offers_approved_only s → offers_approved_only (run s es)) as H.
    { induction es as [|e es IH]; intros s Hs; simpl; [done|].
      by apply IH, step_offers_approved_only. }
    apply H. by split_and!; constructor.
  - intros d. rewrite (proj1 (step_options _ _)). by apply filter_Selects.
  - intros d. rewrite (proj1 (proj2 (step_options _ _))). by apply filter_Selects.
  - intros d. rewrite (proj2 (proj2 (step_options _ _))). by apply filter_Selects.
Qed.

Ltac is_plain x := first [is_var x | constr_eq x (@nil N)].

(** Decide one comparison between two selections. *)
Ltac split_plain_eq :=
  match goal with
  | |- context [str_eq ?a ?a] => rewrite (str_eq_refl a)
  | |- context [str_eq ?a ?b] =>
      is_plain a; is_plain b;
      let E := fresh "E" in
      destruct (str_eq a b) eqn:E;
      [apply str_eq_true in E; try subst a; try subst b
      | apply str_eq_false in E]
  end.

Ltac expose :=
  cbn;
  unfold onSelectCategory, onSelectTheme, onSelectLanguage,
    handleSearchChange, setSelectedCategory, setSelectedTheme,
    setSelectedLanguage, setSearchTerm, setFilteredTerms;
  cbn.

(** X8. Filter inputs of different kinds commute: two events that write
    different ones among the selected category, the selected theme, the
    selected language and the search text lead to the same state in
    either order, filtered list included. *)
Theorem filters_commute (s : State) (e1 e2 : Event) (i j : nat) :
  dimension e1 = Some i → dimension e2 = Some j → i ≠ j →
  run s [e1; e2] = run s [e2; e1].
Proof.
  intros H1 H2 Hij. cbn [run foldl].
  destruct e1; try discriminate H1; destruct e2; try discriminate H2;
    injection H1 as <-; injection H2 as <-; try done; clear Hij;
    destruct s; unfold step, filterEffect;
    repeat (expose; split_plain_eq); expose; congruence.
Qed.

(** Choosing "Noun" and searching "chat", in both orders. *)
Lemma filters_commute_witness :
  run elevenLoaded [SelectCategory (js "Noun"); SearchChange (js "chat")]
  = run elevenLoaded [SearchChange (js "chat"); SelectCategory (js "Noun")].
Proof.
  apply (filters_commute elevenLoaded (SelectCategory (js "Noun"))
           (SearchChange (js "chat")) 0 3); [reflexivity | reflexivity | lia].
Defined.

Lemma lower_upper_unit (c : N) :
  c < 0xFF → c ≠ 0xB5 → c ≠ 0xDF → lower_unit <$> upper_unit c = [lower_unit c].
Proof.
  intros H1 H2 H3. unfold upper_unit.
  split_units; simpl; f_equal; unfold lower_unit; split_units;
    try reflexivity; lia.
Qed.

Lemma lower_upper (q : JsString) :
  plain_latin q → toLowerCase (toUpperCase q) = toLowerCase q.
Proof.
  induction 1 as [|c q (H1 & H2 & H3) _ IH]; [done|].
  change (toUpperCase (c :: q)) with (upper_unit c ++ toUpperCase q).
  unfold toLowerCase in *. rewrite fmap_app, IH, lower_upper_unit by done.
  reflexivity.
Qed.

(** X9. The letter case of a Latin-1 search text does not matter:
    lower-casing it changes no result, and neither does upper-casing it
    as long as it has none of U+00B5, U+00DF and U+00FF. *)
Theorem query_case_irrelevant selCategory selTheme selLanguage q ts :
  (latin1 q →
   filterTerms selCategory selTheme selLanguage (toLowerCase q) ts
   = filterTerms selCategory selTheme selLanguage q ts) ∧
  (plain_latin q →
   filterTerms selCategory selTheme selLanguage (toUpperCase q) ts
   = filterTerms selCategory selTheme selLanguage q ts).
Proof.
  unfold filterTerms, matches. split.
  - intros _. by rewrite toLowerCase_idem.
  - intros Hq. by rewrite lower_upper.
Qed.

(** "CHAT" finds what "chat" finds, and "chat" what "Chat" finds. *)
Lemma query_case_irrelevant_witness :
  filterTerms [] [] [] (js "CHAT") [Samples.chat; Samples.rapide]
  = filterTerms [] [] [] (js "chat") [Samples.chat; Samples.rapide] ∧
  filterTerms [] [] [] (js "chat") [Samples.chat; Samples.rapide]
  = filterTerms [] [] [] (js "Chat") [Samples.chat; Samples.rapide].
Proof.
  split.
  - apply (query_case_irrelevant [] [] [] (js "chat")).
    unfold plain_latin. simpl.
    repeat (apply Forall_cons; split;
            [split_and!; [reflexivity | discriminate | discriminate]|]).
    constructor.
  - apply (query_case_irrelevant [] [] [] (js "Chat")). latin1_text.
Defined.

(** With a sharp s the condition is needed: "STRASSE", the upper-case
    form of "Straße", does not find the term "Straße". *)
Example sharp_s_query :
  filterTerms [] [] [] strasse [strasseTerm] = [strasseTerm] ∧
  toUpperCase strasse = js "STRASSE" ∧
  filterTerms [] [] [] (toUpperCase strasse) [strasseTerm] = [].
Proof. by split_and!. Qed.

End HomePageMore.

(** ** More on the term form *)

Module TermFormMore.
Import JS JSFacts TermForm TermFormFacts TripleRules TermFormLoad Notions.
Import HomePageMore.

Lemma upper_lower_unit (c : N) : upper_unit (lower_unit c) = upper_unit c.
Proof.
  unfold lower_unit. split_units; unfold upper_unit; split_units;
    try reflexivity; try lia; f_equal; lia.
Qed.

(** Only the sharp s grows when upper-cased. *)
Lemma upper_unit_length_cases (c : N) :
  length (upper_unit c) = if c =? 0xDF then 2%nat else 1%nat.
Proof. unfold upper_unit. split_units; try reflexivity; lia. Qed.

(** X10. On Latin-1 text capitalizeWord returns the empty string for the
    empty string only, never shortens its input and lengthens it by at
    most one character; the length is kept unless the input starts with
    U+00DF (sharp s). *)
Theorem capitalizeWord_length (w : JsString) :
  latin1 w →
  (length w ≤ length (capitalizeWord w) ≤ S (length w))%nat ∧
  (capitalizeWord w = [] ↔ w = []) ∧
  (head w ≠ Some 0xDF → length (capitalizeWord w) = length w).
Proof.
  intros _. destruct w as [|c rest].
  { replace (capitalizeWord []) with (@nil N) by reflexivity.
    simpl. split_and!; first [lia | tauto | by intros]. }
  rewrite capitalizeWord_cons, length_app.
  unfold toLowerCase. rewrite length_fmap, upper_unit_length_cases. simpl.
  split_and!.
  - destruct (c =? 0xDF); lia.
  - destruct (c =? 0xDF); lia.
  - split; [|done]. intros [H _]%app_eq_nil.
    pose proof (upper_unit_length c) as Hlen. rewrite H in Hlen.
    simpl in Hlen. lia.
  - intros Hc. destruct (N.eqb_spec c 0xDF) as [->|]; [by destruct Hc | done].
Qed.

(** "verb" keeps its four characters. *)
Lemma capitalizeWord_length_witness :
  length (capitalizeWord (js "verb")) = 4%nat.
Proof.
  apply (capitalizeWord_length (js "verb")); [latin1_text | discriminate].
Defined.

(** X11. Typing on, in Latin-1 text: for an entered text whose first
    character upcases to at most one character, capitalizing the stored
    text with more characters appended gives what capitalizing the
    entered text with the same characters appended gives. *)
Theorem capitalizeWord_keystrokes (w k : JsString) :
  latin1 w → latin1 k →
  (length (toUpperCase (charAt w 0)) ≤ 1)%nat →
  capitalizeWord (capitalizeWord w ++ k) = capitalizeWord (w ++ k).
Proof.
  intros _ _. destruct w as [|c rest]; [done|].
  change (charAt (c :: rest) 0) with [c]. rewrite toUpperCase_unit.
  intros Hlen. rewrite capitalizeWord_cons.
  pose proof (upper_unit_length c) as Hpos.
  destruct (upper_unit c) as [|u [|? ?]] eqn:Hu; simpl in Hlen, Hpos; try lia.
  simpl. rewrite !capitalizeWord_cons, Hu, (upper_unit_single c u) by done.
  unfold toLowerCase. rewrite !fmap_app, <- list_fmap_compose.
  do 2 f_equal. apply list_fmap_ext. intros _ x _. apply lower_unit_idem.
Qed.

(** "vER" is stored as "Ver"; a "B" typed next gives "Verb" either way. *)
Lemma capitalizeWord_keystrokes_witness :
  capitalizeWord (capitalizeWord (js "vER") ++ js "B")
  = capitalizeWord (js "vER" ++ js "B").
Proof.
  apply (capitalizeWord_keystrokes (js "vER") (js "B"));
    [latin1_text | latin1_text | simpl; lia].
Defined.

(** With a sharp s in front this fails: the stored "SS" followed by "e"
    becomes "Sse", the raw text followed by "e" becomes "SSe". *)
Example sharp_s_keystrokes :
  capitalizeWord (capitalizeWord [0xDF] ++ js "e") = js "Sse" ∧
  capitalizeWord ([0xDF] ++ js "e") = js "SSe".
Proof. by split_and!. Qed.

(** X12. capitalizeWord ignores the letter case of its input: two
    Latin-1 texts with the same lower-case form give the same result. *)
Theorem capitalizeWord_ignores_case (w1 w2 : JsString) :
  latin1 w1 → latin1 w2 →
  toLowerCase w1 = toLowerCase w2 → capitalizeWord w1 = capitalizeWord w2.
Proof.
  intros _ _. destruct w1 as [|c1 r1], w2 as [|c2 r2]; try done.
  intros [= Hc Hr]. rewrite !capitalizeWord_cons.
  rewrite <- (upper_lower_unit c1), <- (upper_lower_unit c2), Hc.
  f_equal. exact Hr.
Qed.

Lemma capitalizeWord_ignores_case_witness :
  capitalizeWord (js "vErB") = capitalizeWord (js "VERB").
Proof.
  apply (capitalizeWord_ignores_case (js "vErB") (js "VERB"));
    [latin1_text | latin1_text | reflexivity].
Defined.

(** X13. A load is all or nothing: when any of the three fetches rejects,
    whatever the others resolved to, no dropdown list and no selection is
    written; the only changes are the message 'Error loading data' as the
    error and one line on the console, and no exception leaves the load. *)
Theorem rejected_fetch_stores_nothing (gt_zero : JsValue → Completion bool)
    (p : Props) (s : Form) :
  (∀ reason tf lf,
     load gt_zero p (Rejected reason) tf lf s = (Normal (), after_failed_load s)) ∧
  (∀ cs reason lf,
     load gt_zero p (Resolved cs) (Rejected reason) lf s
     = (Normal (), after_failed_load s)) ∧
  (∀ cs ts reason,
     load gt_zero p (Resolved cs) (Resolved ts) (Rejected reason) s
     = (Normal (), after_failed_load s)).
Proof. by split_and!. Qed.

(** X14. A load whose three fetches resolve to arrays returns normally,
    sets no error and logs nothing, and leaves each dropdown with the
    fetched items in their order followed by the one synthetic "Other". *)
Theorem wellformed_load_quiet (gt_zero : JsValue → Completion bool)
    (p : Props) (cs ts : list NamedOption) (l : list LanguageOption)
    (s : Form) :
  let r := load gt_zero p (Resolved cs) (Resolved ts) (Resolved (LangArray l)) s in
  r.1 = Normal () ∧ error r.2 = error s ∧ console r.2 = console s ∧
  options_stored cs ts (LangArray l) r.2.
Proof.
  destruct cs, ts, l, (falsy (initial init_grammaticalCategory p)) eqn:E1,
    (falsy (initial init_theme p)) eqn:E2,
    (falsy (initial init_language p)) eqn:E3;
    unfold load, defaultSelection, fetchData, fetchBody, try_catch; cbn;
    rewrite ?E1, ?E2, ?E3; cbn; rewrite ?E1, ?E2, ?E3; by split_and!.
Qed.

Lemma defaultSelection_lists p s :
  categories (defaultSelection p s) = categories s ∧
  themeOptions (defaultSelection p s) = themeOptions s ∧
  languageOptions (defaultSelection p s) = languageOptions s.
Proof. unfold defaultSelection. by repeat case_match. Qed.

Lemma not_supplied_falsy (v : option JsString) : ¬ supplied v → falsy v = true.
Proof.
  intros Hv. destruct (falsy v) eqn:Hf; [done|].
  destruct Hv. by apply falsy_supplied.
Qed.

(** The state after a load whose three fetches resolved, started
    anywhere: the effect run on a state that holds the new lists and the
    old free texts. *)
Lemma load_resolved gt_zero p cs ts ld s :
  ∃ s1,
    (load gt_zero p (Resolved cs) (Resolved ts) (Resolved ld) s).2
      = defaultSelection p s1 ∧
    options_stored cs ts ld s1 ∧
    text_is (newCategory s) (newTheme s) (newLanguage s) s1.
Proof.
  exists (fetchData gt_zero p (Resolved cs) (Resolved ts) (Resolved ld) s).2.
  split_and!.
  - unfold load. by destruct (fetchData _ _ _ _ _ s).
  - apply fetchData_options.
  - pose proof (fetchData_text gt_zero p (Resolved cs) (Resolved ts)
                  (Resolved ld) _ _ _ s (conj eq_refl (conj eq_refl eq_refl)))
      as H.
    by destruct (fetchData _ _ _ _ _ s) as [[[]|e] s'].
Qed.

(** X15. After a load whose three fetches resolve to arrays, started in
    any state, a dropdown for which no initial value was supplied shows
    one of its own options: the first of the fetched items followed by
    "Other", so "Other" itself when nothing was fetched. *)
Theorem selection_is_an_option (gt_zero : JsValue → Completion bool)
    (p : Props) (cs ts : list NamedOption) (l : list LanguageOption)
    (s : Form) :
  let s' := (load gt_zero p (Resolved cs) (Resolved ts)
               (Resolved (LangArray l)) s).2 in
  (¬ supplied (initial init_grammaticalCategory p) →
     Some (grammaticalCategory s') = head (opt_name <$> cs ++ [otherOption]) ∧
     grammaticalCategory s' ∈ opt_name <$> categories s') ∧
  (¬ supplied (initial init_theme p) →
     Some (theme s') = head (opt_name <$> ts ++ [otherOption]) ∧
     theme s' ∈ opt_name <$> themeOptions s') ∧
  (¬ supplied (initial init_language p) →
     Some (language s') = head ((JStr ∘ lang_name) <$> l ++ [otherLanguage]) ∧
     language s' ∈ (JStr ∘ lang_name) <$> languageOptions s').
Proof.
  intros s'. subst s'.
  destruct (load_resolved gt_zero p cs ts (LangArray l) s)
    as (s1 & -> & (Hc & Ht & Hl) & _).
  destruct (defaultSelection_fields p s1) as (Hdc & Hdt & Hdl).
  destruct (defaultSelection_lists p s1) as (-> & -> & ->).
  rewrite Hdc, Hdt, Hdl, Hc, Ht, Hl.
  split_and!; intros Hf%not_supplied_falsy; rewrite Hf.
  - destruct cs; simpl; split; try done; apply list_elem_of_here.
  - destruct ts; simpl; split; try done; apply list_elem_of_here.
  - destruct l; simpl; split; try done; apply list_elem_of_here.
Qed.

(** A new form whose services return nothing shows "Other" in the
    category dropdown, which is its only option. *)
Lemma selection_is_an_option_witness :
  let s' := (load Samples.never_positive Samples.createProps (Resolved [])
               (Resolved []) (Resolved (LangArray []))
               (mount Samples.createProps)).2 in
  Some (grammaticalCategory s') = Some Other ∧
  grammaticalCategory s' ∈ opt_name <$> categories s'.
Proof.
  apply (selection_is_an_option Samples.never_positive Samples.createProps
           [] [] [] (mount Samples.createProps)).
  intros (v & Hv & _). discriminate Hv.
Defined.

(** X16. A second load overwrites what the user chose: started in a
    state where the category dropdown shows "Other" with a free text
    typed, and with no initial category supplied, a load puts the first
    fetched category back and keeps the free text. The state then holds
    free text for a dropdown that does not show "Other", and choosing
    "Other" again submits that old text. *)
Theorem reload_revives_stale_text (gt_zero : JsValue → Completion bool)
    (p : Props) (c0 : NamedOption) (cs ts : list NamedOption)
    (ld : LanguagesData) (s : Form) :
  ¬ supplied (initial init_grammaticalCategory p) →
  opt_name c0 ≠ Other → newCategory s ≠ [] →
  let s' := (load gt_zero p (Resolved (c0 :: cs)) (Resolved ts) (Resolved ld) s).2 in
  grammaticalCategory s' = opt_name c0 ∧
  newCategory s' = newCategory s ∧
  ¬ no_stale_text s' ∧
  td_grammaticalCategory (termData (handleCategoryChange Other s')) = newCategory s.
Proof.
  intros Hf%not_supplied_falsy Hc0 Hnew s'. subst s'.
  destruct (load_resolved gt_zero p (c0 :: cs) ts ld s)
    as (s1 & -> & (Hc & _ & _) & Htext).
  apply (defaultSelection_text p) in Htext. destruct Htext as (Hn & _ & _).
  destruct (defaultSelection_fields p s1) as (Hdc & _ & _).
  rewrite Hc, Hf in Hdc. simpl in Hdc.
  split_and!; [done | done | | ].
  - intros (Hstale & _). apply Hnew. rewrite <- Hn. apply Hstale. by rewrite Hdc.
  - exact Hn.
Qed.

(** "Other" chosen and "verb" typed, then the data arrives again. *)
Lemma reload_revives_stale_text_witness :
  let s' := (load Samples.never_positive Samples.createProps
               (Resolved [Samples.noun]) (Resolved [])
               (Resolved (LangArray [])) Samples.verbTyped).2 in
  grammaticalCategory s' = js "Noun" ∧ newCategory s' = js "Verb" ∧
  ¬ no_stale_text s' ∧
  td_grammaticalCategory (termData (handleCategoryChange Other s')) = js "Verb".
Proof.
  apply (reload_revives_stale_text Samples.never_positive Samples.createProps
           Samples.noun [] [] (LangArray []) Samples.verbTyped).
  - intros (v & Hv & _). discriminate Hv.
  - discriminate.
  - discriminate.
Defined.

(** One submission leaves the form filled in: the payload that the form
    would send is the same afterwards and the loading flag is off again.
    Success shows the modal with its message and clears the error;
    failure sets the submission error, logs once and shows no modal. *)
Lemma submit_keeps_form (p : Props) (response : Fetched ()) (s : Form) :
  let r := handleSubmit p response s in
  termData r.2 = termData s ∧
  loading r.2 = false ∧
  (∀ response', (handleSubmit p response' r.2).1 = r.1) ∧
  match response with
  | Resolved _ =>
      showModal r.2 = true ∧ modalMessage r.2 = successMessage ∧
      error r.2 = None ∧ console r.2 = console s
  | Rejected _ =>
      showModal r.2 = showModal s ∧ modalMessage r.2 = modalMessage s ∧
      error r.2 = Some submitErrorMessage ∧
      console r.2 = console s ++ [js "Error submitting term"]
  end.
Proof. by destruct response. Qed.

Lemma submitAll_cons p a rs s :
  submitAll p (a :: rs) s
  = ((handleSubmit p a s).1 :: (submitAll p rs (handleSubmit p a s).2).1,
     (submitAll p rs (handleSubmit p a s).2).2).
Proof.
  cbn [submitAll]. destruct (handleSubmit p a s) as [q s1]. cbn [fst snd].
  by destruct (submitAll p rs s1).
Qed.

(** X17. Pressing submit again and again, once per service outcome: every
    request sent is the one the first press sent, the payload of the form
    is the same at the end, and the loading flag is off. The modal is
    shown at the end exactly if it was shown before or some attempt
    succeeded; the error is cleared if the last attempt succeeded and is
    the submission error if it failed. *)
Theorem resubmitting (p : Props) (responses : list (Fetched ())) (s : Form) :
  let r := submitAll p responses s in
  Forall (λ q, q = submitRequest p s) r.1 ∧
  length r.1 = length responses ∧
  termData r.2 = termData s ∧
  (responses ≠ [] → loading r.2 = false) ∧
  (showModal r.2 = true ↔
     showModal s = true ∨ ∃ x, Resolved x ∈ responses) ∧
  (∀ x, last responses = Some (Resolved x) → error r.2 = None) ∧
  (∀ y, last responses = Some (Rejected y) →
     error r.2 = Some submitErrorMessage).
Proof.
  revert s. induction responses as [|a rs IH]; intros s.
  - simpl. split_and!; try done.
    split; [by left | intros [H | [x Hx%elem_of_nil]]; done].
  - specialize (IH (handleSubmit p a s).2).
    rewrite submitAll_cons. cbn zeta. cbn [fst snd].
    destruct (submitAll p rs (handleSubmit p a s).2) as [qs s'] eqn:E.
    cbn [fst snd] in *.
    destruct IH as (Hq & Hlen & Hdata & Hload & Hmodal & Hok & Hfail).
    assert (submitRequest p (handleSubmit p a s).2 = submitRequest p s) as Hreq
      by by destruct a.
    assert (termData (handleSubmit p a s).2 = termData s) as Hd by by destruct a.
    split_and!.
    + constructor; [done|]. by rewrite <- Hreq.
    + simpl. by rewrite Hlen.
    + by rewrite Hdata.
    + intros _. destruct rs as [|b rs]; [|by apply Hload].
      injection E as _ <-. by destruct a.
    + rewrite Hmodal. split.
      * intros [H | [x Hx]].
        -- destruct a as [[]|y]; simpl in H.
           ++ right. exists (). apply list_elem_of_here.
           ++ by left.
        -- right. exists x. by apply list_elem_of_further.
      * intros [H | [x Hx]].
        -- left. destruct a; simpl; [done | exact H].
        -- apply elem_of_cons in Hx as [<- | Hx]; [by left|].
           right. by exists x.
    + intros x Hx. destruct rs as [|b rs]; [|by apply (Hok x)].
      injection E as _ <-. by injection Hx as ->.
    + intros y Hy. destruct rs as [|b rs]; [|by apply (Hfail y)].
      injection E as _ <-. by injection Hy as ->.
Qed.

(** A failed attempt followed by a successful one. *)
Lemma resubmitting_witness :
  let r := submitAll Samples.createProps [Rejected JNull; Resolved ()]
             Samples.verbTyped in
  loading r.2 = false ∧ error r.2 = None.
Proof.
  intros r.
  destruct (resubmitting Samples.createProps [Rejected JNull; Resolved ()]
              Samples.verbTyped) as (_ & _ & _ & Hload & _ & Hok & _).
  split; [apply Hload; discriminate | apply (Hok ()); reflexivity].
Defined.

Lemma fetchData_raw gt_zero p cf tf lf r :
  preserves (λ s, rawValues s = r) (fetchData gt_zero p cf tf lf).
Proof.
  apply preserves_try_catch; [unfold fetchBody | intros e; unfold fetchCatch];
    preserve; done.
Qed.

Lemma load_raw gt_zero p cf tf lf s :
  rawValues (load gt_zero p cf tf lf s).2 = rawValues s.
Proof.
  unfold load.
  pose proof (fetchData_raw gt_zero p cf tf lf (rawValues s) s eq_refl) as H.
  destruct (fetchData gt_zero p cf tf lf s) as [[[]|e] s']; simpl;
    destruct (optionsReplaced cf tf lf); try done;
    unfold defaultSelection; by repeat case_match.
Qed.

(** Look a key up in the record of an update merged into [rawValues]. *)
Ltac raw_lookup :=
  repeat match goal with
  | |- context [(_ ∪ _) !! _] => rewrite lookup_union
  | |- context [<[_ := _]> _ !! _] => rewrite lookup_insert
  | |- context [{[_ := _]} !! _] => rewrite lookup_singleton
  end;
  repeat case_decide; try done;
  match goal with
  | |- context [rawValues ?s !! ?k] =>
      let E := fresh "E" in
      destruct (rawValues s !! k) eqn:E; simpl; intros [= <-]; auto
  end.

Lemma step_raw_mirrors s e s' :
  step s e = Some s' → raw_mirrors s → raw_mirrors s'.
Proof.
  unfold step. destruct (rendered e s); [|done].
  intros [= <-] (H1 & H2 & H3 & H4 & H5 & H6).
  destruct e as [v|v|v|v|v|v|v|v|v];
    unfold handle, onChangeTerm, onChangeTranslation, onChangeDefinition,
      handleCategoryChange, handleThemeChange, handleLanguageChange,
      onChangeNewCategory, onChangeNewTheme, onChangeNewLanguage;
    try match goal with
        | |- context [negb (str_eq v Other)] => destruct (negb (str_eq v Other))
        end;
    unfold raw_mirrors, updateRawValues;
    cbn [rawValues setRawValues term translation definition
         grammaticalCategory theme language setTerm setTranslation
         setDefinition setGrammaticalCategory setTheme setLanguage
         setNewCategory setNewTheme setNewLanguage];
    split_and!; intros x; raw_lookup.
Qed.

(** A handler merges its update into [rawValues]: no key is dropped. *)
Lemma handle_raw_grows e s :
  ∃ update, rawValues (handle e s) = update ∪ rawValues s.
Proof.
  destruct e as [v|v|v|v|v|v|v|v|v];
    unfold handle, onChangeTerm, onChangeTranslation, onChangeDefinition,
      handleCategoryChange, handleThemeChange, handleLanguageChange,
      onChangeNewCategory, onChangeNewTheme, onChangeNewLanguage;
    try match goal with
        | |- context [negb (str_eq v Other)] => destruct (negb (str_eq v Other))
        end;
    eexists; reflexivity.
Qed.

(** X18. The write-only record rawValues stays in step with the form: in
    every state the form reaches, each of the keys term, translation,
    definition, grammaticalCategory, theme and language that the record
    has holds the current value of that field, and a user event never
    drops a key. *)
Theorem raw_values_mirror (gt_zero : JsValue → Completion bool) (p : Props)
    (s : Form) :
  reachable gt_zero p s →
  raw_mirrors s ∧
  (∀ e s' key, step s e = Some s' →
     is_Some (rawValues s !! key) → is_Some (rawValues s' !! key)).
Proof.
  intros Hs. split.
  - induction Hs as [|cf tf lf|s e s' _ IH Hstep].
    + by split_and!.
    + unfold raw_mirrors. rewrite load_raw. by split_and!.
    + by eapply step_raw_mirrors.
  - intros e s' key. unfold step. destruct (rendered e s); [|done].
    intros [= <-] Hkey. destruct (handle_raw_grows e s) as [update ->].
    rewrite lookup_union_is_Some. by right.
Qed.

Lemma backToNoun_reachable :
  reachable Samples.never_positive Samples.createProps Samples.backToNoun.
Proof.
  apply (reachable_step _ _ _ (CategorySelect (js "Noun")) _
           (reachable_step _ _ _ (NewCategoryInput (js "verb")) _
              (reachable_step _ _ _ (CategorySelect Other) _
                 (reachable_load _ _ _ _ _) eq_refl) eq_refl) eq_refl).
Defined.

(** After "Other", "verb" and "Noun" the record has "Noun" as the
    category, as the state has. *)
Lemma raw_values_mirror_witness :
  JStr (js "Noun") = JStr (grammaticalCategory Samples.backToNoun).
Proof.
  destruct (raw_values_mirror _ _ _ backToNoun_reachable)
    as ((_ & _ & _ & Hc & _) & _).
  apply Hc. reflexivity.
Defined.

(** The free-text keys are not kept in step: the record still has the
    "Verb" that the state has cleared. *)
Example raw_free_text_stale :
  rawValues Samples.backToNoun !! "newCategory" = Some (JStr (js "Verb")) ∧
  newCategory Samples.backToNoun = [].
Proof. by split. Qed.

End TermFormMore.
